(** * event-metrics-service: the ingestion pipeline and the metrics query
    engine, embedded function by function.

    Layout: [Go] holds the few pieces of the Go runtime and standard library
    the service leans on (int64 wrap-around, [time.Unix], [fmt.Sprintf] for
    the verbs in use, [error] values); [Events] is
    internal/events/core/usecase; [EventsPostgres] is
    internal/events/adapters/postgres; [Metrics] is
    internal/metrics/core/usecase; [MetricsPostgres] is
    internal/metrics/adapters/postgres.  The theorems follow the
    definitions. *)

From Stdlib Require Import ZArith List Lia Ascii String.
From stdpp Require Import base numbers list strings pretty gmap.

Local Open Scope Z_scope.

(* ===================================================================== *)
(** ** Go runtime and library pieces *)
(* ===================================================================== *)

Module Go.

(** int64 arithmetic wraps around in two's complement. *)
Definition int64_min : Z := - 2 ^ 63.
Definition int64_max : Z := 2 ^ 63 - 1.
Definition is_int64 (z : Z) : Prop := int64_min <= z <= int64_max.
Definition wrap64 (z : Z) : Z := (z + 2 ^ 63) mod 2 ^ 64 - 2 ^ 63.

(** [error] values.  The sentinels are the package-level [errors.New]
    variables of the two use-case packages; every other error (driver,
    marshalling, row scanning) is an opaque value with a message. *)
Inductive error : Type :=
  | ErrInvalidEvent
  | ErrFutureTime
  | ErrInvalidMetricsQuery
  | ErrInvalidTimeRange
  | ErrInvalidGroupBy
  | ErrInvalidInterval
  | errors_New (msg : string).

#[global] Instance error_eq_dec : EqDecision error.
Proof. solve_decision. Defined.

(** [time.Time]: wall word, seconds since year 1 in [ext] (no monotonic
    reading is attached by [time.Unix]), and the location. *)
Inductive Location : Type := Local | UTCLoc.

Record Time : Type := mkTime { wall : Z; ext : Z; loc : Location }.

Definition unixToInternal : Z :=
  (1969 * 365 + 1969 / 4 - 1969 / 100 + 1969 / 400) * 86400.
Definition internalToUnix : Z := - unixToInternal.

(** [time.Unix(sec, 0)]. *)
Definition time_Unix (sec : Z) : Time :=
  mkTime 0 (wrap64 (sec + unixToInternal)) Local.

(** [t.UTC()]. *)
Definition UTC (t : Time) : Time := mkTime (wall t) (ext t) UTCLoc.

(** [t.Unix()]. *)
Definition Unix (t : Time) : Z := wrap64 (ext t + internalToUnix).

(** [strings.Join]. *)
Fixpoint Join (elems : list string) (sep : string) : string :=
  match elems with
  | [] => ""
  | [s] => s
  | s :: rest => s +:+ sep +:+ Join rest sep
  end.

(** Operands of [fmt.Sprintf]: a string, an int64, an int. *)
Inductive fmtArg : Type :=
  | FString (s : string)
  | FInt64 (z : Z)
  | FInt (z : Z).

(** [type=value], as [Sprintf] prints an operand inside a diagnostic. *)
Definition typedOperand (a : fmtArg) : string :=
  match a with
  | FString s => "string=" +:+ s
  | FInt64 z => "int64=" +:+ pretty z
  | FInt z => "int=" +:+ pretty z
  end.

(** The diagnostics for a verb whose operand has the wrong type, for a verb
    without operand, and for operands left over. *)
Definition badVerb (v : ascii) (a : fmtArg) : string :=
  "%!" +:+ String v ("(" +:+ typedOperand a +:+ ")").

Definition missing (v : ascii) : string := "%!" +:+ String v "(MISSING)".

Definition extra (args : list fmtArg) : string :=
  match args with
  | [] => ""
  | _ => "%!(EXTRA " +:+ Join (map typedOperand args) ", " +:+ ")"
  end.

(** One operand under one verb: [%s] on a string, [%d] on an integer
    (signed decimal). *)
Definition printArg (v : ascii) (a : fmtArg) : string :=
  match a with
  | FString s => if Ascii.eqb v "s" then s else badVerb v a
  | FInt64 z | FInt z => if Ascii.eqb v "d" then pretty z else badVerb v a
  end.

(** [fmt.Sprintf] for the verbs the service uses ([%s], [%d], [%%]) and
    literal text. *)
Fixpoint Sprintf (format : string) (args : list fmtArg) : string :=
  match format with
  | EmptyString => extra args
  | String "%" EmptyString => "%!(NOVERB)" +:+ extra args
  | String "%" (String v rest) =>
      if Ascii.eqb v "%" then String "%" (Sprintf rest args)
      else
        match args with
        | [] => missing v +:+ Sprintf rest []
        | a :: args' => printArg v a +:+ Sprintf rest args'
        end
  | String c rest => String c (Sprintf rest args)
  end%char.

(** The values handed to the driver as statement arguments: the untyped
    nil, a string, a [time.Time], the [pq.Array] wrapper around a string
    slice, and a byte slice. *)
Inductive SqlArg : Type :=
  | ArgNil
  | ArgString (s : string)
  | ArgTime (t : Time)
  | ArgStringArray (a : option (list string))
  | ArgBytes (b : string).

#[global] Instance Location_eq_dec : EqDecision Location.
Proof. solve_decision. Defined.

#[global] Instance Time_eq_dec : EqDecision Time.
Proof. solve_decision. Defined.

#[global] Instance SqlArg_eq_dec : EqDecision SqlArg.
Proof. solve_decision. Defined.

End Go.

Import Go.

(** A small state monad: every operation threads the world it runs in. *)
Definition State (W A : Type) : Type := W -> W * A.

Definition ret {W A} (a : A) : State W A := fun w => (w, a).

Definition bind {W A B} (m : State W A) (k : A -> State W B) : State W B :=
  fun w => let (w', a) := m w in k a w'.

Declare Scope go_scope.
Delimit Scope go_scope with go.
Notation "x <~ m ;; k" := (bind m (fun x => k))
  (at level 100, m at next level, right associativity) : go_scope.

(* ===================================================================== *)
(** ** internal/events/core: domain, ports, usecase *)
(* ===================================================================== *)

Module Events.

(** domain.Event.  A nil slice and a nil map are [None]; [any] is the type
    of the metadata values, which the core never inspects. *)
Record Event (any : Type) : Type := mkEvent {
  EventName : string;
  Channel : string;
  CampaignID : string;
  UserID : string;
  EventTime : Time;
  Tags : option (list string);
  Metadata : option (gmap string any);
  DedupeKey : string
}.

Arguments mkEvent {any}.
Arguments EventName {any}.
Arguments Channel {any}.
Arguments CampaignID {any}.
Arguments UserID {any}.
Arguments EventTime {any}.
Arguments Tags {any}.
Arguments Metadata {any}.
Arguments DedupeKey {any}.

(** ports.EventRepositoryPort: [InsertEvent] returns [(created, err)] and
    may change the repository. *)
Class EventRepositoryPort (any R : Type) : Type :=
  InsertEvent : Event any -> R -> R * (bool * option error).

Record StoreEventInput (any : Type) : Type := mkStoreEventInput {
  in_EventName : string;
  in_Channel : string;
  in_CampaignID : string;
  in_UserID : string;
  in_Timestamp : Z;
  in_Tags : option (list string);
  in_Metadata : option (gmap string any)
}.

Arguments mkStoreEventInput {any}.
Arguments in_EventName {any}.
Arguments in_Channel {any}.
Arguments in_CampaignID {any}.
Arguments in_UserID {any}.
Arguments in_Timestamp {any}.
Arguments in_Tags {any}.
Arguments in_Metadata {any}.

(** The counters are incremented once per item of one slice, whose length
    fits an [int]: the increments are exact. *)
Record BulkCreateEventsResult : Type := mkBulkResult {
  Created : Z;
  Duplicates : Z
}.

(** What the use case runs in: the number of wall-clock readings taken so
    far, the repository behind the port, and the record of the
    [InsertEvent] calls made, each with what it returned. *)
Record World (any R : Type) : Type := mkWorld {
  ticks : nat;
  repo : R;
  calls : list (Event any * (bool * option error))
}.

Arguments mkWorld {any R}.
Arguments ticks {any R}.
Arguments repo {any R}.
Arguments calls {any R}.

Section UseCase.

Context {any R : Type} `{!EventRepositoryPort any R}.

(** The wall clock: [wallclock n] is what the [n]-th evaluation of
    [time.Now().Unix()] returns. *)
Variable wallclock : nat -> Z.

Abbreviation M := (State (World any R)).

(** The world after one more reading of the clock. *)
Definition tick (w : World any R) : World any R :=
  mkWorld (S (ticks w)) (repo w) (calls w).

Definition time_Now_Unix : M Z := fun w => (tick w, wallclock (ticks w)).

(** [uc.repo.InsertEvent(ctx, e)]. *)
Definition repo_InsertEvent (e : Event any) : M (bool * option error) :=
  fun w =>
    let (r', out) := InsertEvent e (repo w) in
    (mkWorld (ticks w) r' (calls w ++ [(e, out)]), out).

Definition validateInput (i : StoreEventInput any) : M (option error) :=
  if bool_decide (in_EventName i = "") || bool_decide (in_Channel i = "")
     || bool_decide (in_UserID i = "")
  then ret (Some ErrInvalidEvent)
  else
    (now <~ time_Now_Unix ;;
     if bool_decide (in_Timestamp i > now) then ret (Some ErrFutureTime)
     else ret None)%go.

Definition buildDedupeKey (i : StoreEventInput any) (t : Time) : string :=
  Sprintf "%s|%s|%s|%s|%d"
    [FString (in_EventName i); FString (in_UserID i); FString (in_Channel i);
     FString (in_CampaignID i); FInt64 (Unix t)].

Definition Execute (i : StoreEventInput any) : M (bool * option error) :=
  (verr <~ validateInput i ;;
   match verr with
   | Some err => ret (false, Some err)
   | None =>
       let eventTime := UTC (time_Unix (in_Timestamp i)) in
       let tags := match in_Tags i with None => Some [] | Some t => Some t end in
       let metadata :=
         match in_Metadata i with None => Some ∅ | Some m => Some m end in
       let i' := mkStoreEventInput (in_EventName i) (in_Channel i)
                   (in_CampaignID i) (in_UserID i) (in_Timestamp i)
                   tags metadata in
       let dedupeKey := buildDedupeKey i' eventTime in
       let e := mkEvent (in_EventName i') (in_Channel i') (in_CampaignID i')
                  (in_UserID i') eventTime (in_Tags i') (in_Metadata i')
                  dedupeKey in
       out <~ repo_InsertEvent e ;;
       match out with
       | (_, Some err) => ret (false, Some err)
       | (created, None) => ret (created, None)
       end
   end)%go.

(** The first loop of [BulkCreateEvents]. *)
Fixpoint validateAll (evs : list (StoreEventInput any)) : M (option error) :=
  match evs with
  | [] => ret None
  | ev :: rest =>
      (verr <~ validateInput ev ;;
       match verr with
       | Some err => ret (Some err)
       | None => validateAll rest
       end)%go
  end.

(** The second loop of [BulkCreateEvents], from the counters [res]. *)
Fixpoint storeAll (evs : list (StoreEventInput any)) (res : BulkCreateEventsResult)
  : M (BulkCreateEventsResult * option error) :=
  match evs with
  | [] => ret (res, None)
  | ev :: rest =>
      (out <~ Execute ev ;;
       match out with
       | (_, Some err) => ret (res, Some err)
       | (true, None) =>
           storeAll rest (mkBulkResult (Created res + 1) (Duplicates res))
       | (false, None) =>
           storeAll rest (mkBulkResult (Created res) (Duplicates res + 1))
       end)%go
  end.

Definition BulkCreateEvents (evs : list (StoreEventInput any))
  : M (BulkCreateEventsResult * option error) :=
  let res := mkBulkResult 0 0 in
  (verr <~ validateAll evs ;;
   match verr with
   | Some err => ret (res, Some err)
   | None => storeAll evs res
   end)%go.

(** [served r log r']: from state [r], the repository answered the calls of
    [log] one after the other, each as recorded, and ended in [r']. *)
Inductive served : R -> list (Event any * (bool * option error)) -> R -> Prop :=
  | served_nil r : served r [] r
  | served_cons r e r1 out log r2 :
      InsertEvent e r = (r1, out) ->
      served r1 log r2 ->
      served r ((e, out) :: log) r2.

End UseCase.

(** The repositories of the use-case tests.  [fakeEventRepo] answers
    through its [InsertFn]; [fakeBulkRepo] records the events it is handed
    and answers from the queue [Results] (created when the queue is empty),
    or fails with [Err] when that is set. *)
Record fakeEventRepo (any : Type) : Type := mkFakeEventRepo {
  InsertFn : Event any -> bool * option error
}.

Arguments mkFakeEventRepo {any}.
Arguments InsertFn {any}.

#[global] Instance fakeEventRepo_port {any} : EventRepositoryPort any (fakeEventRepo any) :=
  fun e f => (f, InsertFn f e).

Record fakeBulkRepo (any : Type) : Type := mkFakeBulkRepo {
  InsertCalls : list (Event any);
  Results : list bool;
  Err : option error
}.

Arguments mkFakeBulkRepo {any}.
Arguments InsertCalls {any}.
Arguments Results {any}.
Arguments Err {any}.

#[global] Instance fakeBulkRepo_port {any} : EventRepositoryPort any (fakeBulkRepo any) :=
  fun e f =>
    match Err f with
    | Some err => (f, (false, Some err))
    | None =>
        let called := InsertCalls f ++ [e] in
        match Results f with
        | [] => (mkFakeBulkRepo called [] (Err f), (true, None))
        | res :: rest => (mkFakeBulkRepo called rest (Err f), (res, None))
        end
    end.

End Events.

(* ===================================================================== *)
(** ** internal/events/adapters/postgres *)
(* ===================================================================== *)

Module EventsPostgres.

Import Events.

(** sql.Result, as far as it is used: [RowsAffected() (int64, error)]. *)
Record sqlResult : Type := mkSqlResult {
  RowsAffected : Z + error
}.

(** The adapter's [DB] interface. *)
Class DB (D : Type) : Type :=
  ExecContext : string -> list SqlArg -> D -> D * (sqlResult + error).

Definition insertEventSQL : string :=
"
INSERT INTO events (
    event_name,
    channel,
    campaign_id,
    user_id,
    event_time,
    tags,
    metadata,
    dedupe_key
) VALUES (
    $1, $2, $3, $4,
    $5, $6, $7, $8
)
ON CONFLICT (dedupe_key) DO NOTHING;
".

Definition pqStringArray (tags : option (list string)) : SqlArg :=
  ArgStringArray tags.

Section Repository.

Context {any D : Type} `{!DB D}.

(** [json.Marshal] on the metadata map: the bytes, or an error. *)
Variable json_Marshal : option (gmap string any) -> string + error.

(** The arguments [InsertEvent] builds for the statement. *)
Definition insertArgs (e : Event any) (metadataJSON : string) : list SqlArg :=
  let campaignID :=
    if bool_decide (CampaignID e = "") then ArgNil else ArgString (CampaignID e) in
  [ArgString (EventName e); ArgString (Channel e); campaignID;
   ArgString (UserID e); ArgTime (EventTime e); pqStringArray (Tags e);
   ArgBytes metadataJSON; ArgString (DedupeKey e)].

(** (r *EventRepository) InsertEvent. *)
Definition EventRepository_InsertEvent (e : Event any) (d : D)
  : D * (bool * option error) :=
  match json_Marshal (Metadata e) with
  | inr err => (d, (false, Some err))
  | inl metadataJSON =>
      match ExecContext insertEventSQL (insertArgs e metadataJSON) d with
      | (d', inr err) => (d', (false, Some err))
      | (d', inl res) =>
          match RowsAffected res with
          | inr err => (d', (false, Some err))
          | inl rows => (d', (bool_decide (rows > 0), None))
          end
      end
  end.

(** What comes back from the storage layer for the insert-if-absent of
    [e] on [d]: the number of rows affected, or the fault (of marshalling
    the metadata, of executing the statement, of reading the count). *)
Definition storageReport (e : Event any) (d : D) : Z + error :=
  match json_Marshal (Metadata e) with
  | inr err => inr err
  | inl metadataJSON =>
      match (ExecContext insertEventSQL (insertArgs e metadataJSON) d).2 with
      | inr err => inr err
      | inl res => RowsAffected res
      end
  end.

End Repository.

(** The repository is an [EventRepositoryPort] over the state of its
    database handle. *)
Definition EventRepository {any D : Type} `{!DB D}
    (json_Marshal : option (gmap string any) -> string + error)
  : EventRepositoryPort any D :=
  EventRepository_InsertEvent json_Marshal.

(** The database of the adapter's tests. *)
Record fakeResult : Type := mkFakeResult { rowsAffected : Z }.

Definition fakeResult_Result (f : fakeResult) : sqlResult :=
  mkSqlResult (inl (rowsAffected f)).

Record fakeDB : Type := mkFakeDB {
  ExecFn : option (string -> list SqlArg -> sqlResult + error);
  lastQuery : string;
  lastArgs : list SqlArg;
  execCalled : bool
}.

#[global] Instance fakeDB_DB : DB fakeDB :=
  fun query args f =>
    let f' := mkFakeDB (ExecFn f) query args true in
    match ExecFn f with
    | Some fn => (f', fn query args)
    | None => (f', inl (fakeResult_Result (mkFakeResult 1)))
    end.

(** The events table as the statement sees it: the rows inserted so far,
    with the unique index ux_events_dedupe on the last column.  The
    statement inserts the row unless a row with the same dedupe_key is
    there (ON CONFLICT (dedupe_key) DO NOTHING) and reports the number of
    rows it inserted. *)
Definition eventsTable : Type := list (list SqlArg).

Definition dedupe_key_of (row : list SqlArg) : option SqlArg := row !! 7%nat.

#[global] Instance eventsTable_DB : DB eventsTable :=
  fun query args tbl =>
    if bool_decide (query = insertEventSQL ∧ length args = 8%nat) then
      if bool_decide (Exists (fun row => dedupe_key_of row = dedupe_key_of args) tbl)
      then (tbl, inl (mkSqlResult (inl 0)))
      else (tbl ++ [args], inl (mkSqlResult (inl 1)))
    else (tbl, inr (errors_New "pq: unexpected statement")).

End EventsPostgres.

(* ===================================================================== *)
(** ** internal/metrics/core: domain, ports, usecase *)
(* ===================================================================== *)

Module Metrics.

Record MetricsGroup : Type := mkMetricsGroup {
  Key : string;
  Group_TotalCount : Z;
  Group_UniqueUsers : Z
}.

(** A nil [Groups] slice and an empty one are both [[]]. *)
Record AggregatedMetrics : Type := mkAggregatedMetrics {
  EventName : string;
  From : Z;
  To : Z;
  TotalCount : Z;
  UniqueUsers : Z;
  GroupBy : string;
  Groups : list MetricsGroup
}.

Record MetricsFilter : Type := mkMetricsFilter {
  f_EventName : string;
  f_From : Z;
  f_To : Z;
  f_Channel : option string;
  f_GroupBy : string;
  f_Interval : string
}.

(** ports.MetricsReaderPort: [QueryMetrics] returns [(result, err)]. *)
Class MetricsReaderPort (R : Type) : Type :=
  QueryMetrics : MetricsFilter -> R -> R * (option AggregatedMetrics * option error).

Record GetMetricsInput : Type := mkGetMetricsInput {
  in_EventName : string;
  in_From : Z;
  in_To : Z;
  in_Channel : option string;
  in_GroupBy : string;
  in_Interval : string
}.

(** The reader behind the port and the record of the filters it was
    queried with. *)
Record World (R : Type) : Type := mkWorld {
  reader : R;
  queries : list MetricsFilter
}.

Arguments mkWorld {R}.
Arguments reader {R}.
Arguments queries {R}.

Section UseCase.

Context {R : Type} `{!MetricsReaderPort R}.

Abbreviation M := (State (World R)).

(** [uc.reader.QueryMetrics(ctx, filter)]. *)
Definition reader_QueryMetrics (f : MetricsFilter)
  : M (option AggregatedMetrics * option error) :=
  fun w =>
    let (r', out) := QueryMetrics f (reader w) in
    (mkWorld r' (queries w ++ [f]), out).

Definition Execute (i : GetMetricsInput)
  : M (option AggregatedMetrics * option error) :=
  if bool_decide (in_EventName i = "") then ret (None, Some ErrInvalidMetricsQuery)
  else if bool_decide (in_From i <= 0) || bool_decide (in_To i <= 0)
          || bool_decide (in_From i > in_To i)
  then ret (None, Some ErrInvalidTimeRange)
  else
    let switch : option error :=
      if bool_decide (in_GroupBy i = "") then None
      else if bool_decide (in_GroupBy i = "channel") then None
      else if bool_decide (in_GroupBy i = "time") then
        if bool_decide (in_Interval i ≠ "hour") && bool_decide (in_Interval i ≠ "day")
        then Some ErrInvalidInterval
        else None
      else Some ErrInvalidGroupBy in
    match switch with
    | Some err => ret (None, Some err)
    | None =>
        let filter := mkMetricsFilter (in_EventName i) (in_From i) (in_To i)
                        (in_Channel i) (in_GroupBy i) (in_Interval i) in
        (out <~ reader_QueryMetrics filter ;;
         match out with
         | (_, Some err) => ret (None, Some err)
         | (result, None) => ret (result, None)
         end)%go
    end.

End UseCase.

End Metrics.

(* ===================================================================== *)
(** ** internal/metrics/adapters/postgres *)
(* ===================================================================== *)

Module MetricsPostgres.

Import Metrics.

(** What [rows.Scan] writes through one destination pointer. *)
Inductive Column : Type :=
  | ColString (s : string)
  | ColInt64 (z : Z)
  | ColTime (t : Time).

(** A [RowScanner], by what it will deliver: for each row that [Next]
    announces, the columns [Scan] writes or the error it returns; and what
    [Err] reports when the repository asks, after its last [Next]. *)
Record RowScanner : Type := mkRowScanner {
  pending : list (list Column + error);
  iterErr : option error
}.

(** The adapter's [DB] interface, for the databases that answer a query with
    rows or with an error, as [sqlDB.QueryContext] does.  A database that
    answers nil rows together with a nil error is outside this class: with
    it [QueryMetrics] does not return, it panics at [defer rows.Close()]. *)
Class DB (D : Type) : Type :=
  QueryContext : string -> list SqlArg -> D -> D * (RowScanner + error).

(** The error of a [Scan] whose row does not convert to the destinations. *)
Definition scanError : error := errors_New "sql: Scan error".

Section Repository.

Context {D : Type} `{!DB D}.

(** [t.Format(time.RFC3339)]. *)
Variable Format_RFC3339 : Time -> string.

Definition queryNoGroup (where_ : string) (args : list SqlArg)
    (res : AggregatedMetrics) (d : D) : D * (option AggregatedMetrics * option error) :=
  let query := "
SELECT
    COUNT(*) AS total_count,
    COUNT(DISTINCT user_id) AS unique_users
FROM events
WHERE " +:+ where_ in
  match QueryContext query args d with
  | (d', inr err) => (d', (None, Some err))
  | (d', inl rows) =>
      let scanned : AggregatedMetrics + error :=
        match pending rows with
        | row :: _ =>
            match row with
            | inl [ColInt64 total; ColInt64 unique] =>
                inl (mkAggregatedMetrics (EventName res) (From res) (To res)
                       total unique (GroupBy res) (Groups res))
            | inl _ => inr scanError
            | inr err => inr err
            end
        | [] => inl res
        end in
      match scanned with
      | inr err => (d', (None, Some err))
      | inl res' =>
          match iterErr rows with
          | Some err => (d', (None, Some err))
          | None => (d', (Some res', None))
          end
      end
  end.

(** The [for rows.Next()] loop of [queryGroupByChannel]: the groups and the
    two int64 sums after the rows delivered, or the first [Scan] error. *)
Fixpoint scanChannelRows (rows : list (list Column + error))
    (groups : list MetricsGroup) (totalSum uniqueSum : Z)
  : list MetricsGroup * Z * Z + error :=
  match rows with
  | [] => inl (groups, totalSum, uniqueSum)
  | row :: rest =>
      match row with
      | inl [ColString ch; ColInt64 total; ColInt64 unique] =>
          scanChannelRows rest (groups ++ [mkMetricsGroup ch total unique])
            (wrap64 (totalSum + total)) (wrap64 (uniqueSum + unique))
      | inl _ => inr scanError
      | inr err => inr err
      end
  end.

Definition queryGroupByChannel (where_ : string) (args : list SqlArg)
    (res : AggregatedMetrics) (d : D) : D * (option AggregatedMetrics * option error) :=
  let query := "
SELECT
    channel,
    COUNT(*) AS total_count,
    COUNT(DISTINCT user_id) AS unique_users
FROM events
WHERE " +:+ where_ +:+ "
GROUP BY channel
ORDER BY channel" in
  match QueryContext query args d with
  | (d', inr err) => (d', (None, Some err))
  | (d', inl rows) =>
      match scanChannelRows (pending rows) [] 0 0 with
      | inr err => (d', (None, Some err))
      | inl (groups, totalSum, uniqueSum) =>
          match iterErr rows with
          | Some err => (d', (None, Some err))
          | None =>
              (d', (Some (mkAggregatedMetrics (EventName res) (From res) (To res)
                            totalSum uniqueSum (GroupBy res) groups), None))
          end
      end
  end.

(** The [for rows.Next()] loop of [queryGroupByTime]. *)
Fixpoint scanTimeRows (rows : list (list Column + error))
    (groups : list MetricsGroup) (totalSum uniqueSum : Z)
  : list MetricsGroup * Z * Z + error :=
  match rows with
  | [] => inl (groups, totalSum, uniqueSum)
  | row :: rest =>
      match row with
      | inl [ColTime ts; ColInt64 total; ColInt64 unique] =>
          scanTimeRows rest
            (groups ++ [mkMetricsGroup (Format_RFC3339 (UTC ts)) total unique])
            (wrap64 (totalSum + total)) (wrap64 (uniqueSum + unique))
      | inl _ => inr scanError
      | inr err => inr err
      end
  end.

Definition queryGroupByTime (where_ : string) (args : list SqlArg)
    (res : AggregatedMetrics) (interval : string) (d : D)
  : D * (option AggregatedMetrics * option error) :=
  let query := Sprintf "
SELECT
    date_trunc('%s', event_time) AS bucket,
    COUNT(*) AS total_count,
    COUNT(DISTINCT user_id) AS unique_users
FROM events
WHERE %s
GROUP BY bucket
ORDER BY bucket
" [FString interval; FString where_] in
  match QueryContext query args d with
  | (d', inr err) => (d', (None, Some err))
  | (d', inl rows) =>
      match scanTimeRows (pending rows) [] 0 0 with
      | inr err => (d', (None, Some err))
      | inl (groups, totalSum, uniqueSum) =>
          match iterErr rows with
          | Some err => (d', (None, Some err))
          | None =>
              (d', (Some (mkAggregatedMetrics (EventName res) (From res) (To res)
                            totalSum uniqueSum (GroupBy res) groups), None))
          end
      end
  end.

(** (r *MetricsRepository) QueryMetrics. *)
Definition MetricsRepository_QueryMetrics (f : MetricsFilter) (d : D)
  : D * (option AggregatedMetrics * option error) :=
  let fromTime := UTC (time_Unix (f_From f)) in
  let toTime := UTC (time_Unix (f_To f)) in
  let where_ := "event_name = $1 AND event_time BETWEEN $2 AND $3" in
  let args := [ArgString (f_EventName f); ArgTime fromTime; ArgTime toTime] in
  let argIndex := 4 in
  let '(where_, args) :=
    match f_Channel f with
    | Some ch =>
        (where_ +:+ Sprintf " AND channel = $%d" [FInt argIndex],
         args ++ [ArgString ch])
    | None => (where_, args)
    end in
  let result := mkAggregatedMetrics (f_EventName f) (f_From f) (f_To f) 0 0
                  (f_GroupBy f) [] in
  if bool_decide (f_GroupBy f = "") then queryNoGroup where_ args result d
  else if bool_decide (f_GroupBy f = "channel") then
    queryGroupByChannel where_ args result d
  else if bool_decide (f_GroupBy f = "time") then
    queryGroupByTime where_ args result (f_Interval f) d
  else (d, (None, Some (errors_New (Sprintf "unsupported group_by: %s"
                                      [FString (f_GroupBy f)])))).

End Repository.

(** The repository is a [MetricsReaderPort] over the state of its database
    handle. *)
Definition MetricsRepository {D : Type} `{!DB D} (Format_RFC3339 : Time -> string)
  : MetricsReaderPort D :=
  MetricsRepository_QueryMetrics Format_RFC3339.

(** The database of the adapter's tests, with its [QueryFn] set: it answers
    through [QueryFn] and remembers the query.  (With [QueryFn] nil the
    test database answers nil rows with a nil error, which is outside
    [DB].) *)
Record fakeDB : Type := mkFakeDB {
  QueryFn : string -> list SqlArg -> RowScanner + error;
  lastQuery : string;
  lastArgs : list SqlArg;
  called : bool
}.

#[global] Instance fakeDB_DB : DB fakeDB :=
  fun query args f => (mkFakeDB (QueryFn f) query args true, QueryFn f query args).

End MetricsPostgres.

(* ===================================================================== *)
(** ** net/http and errors, as the handlers use them *)
(* ===================================================================== *)

Module Http.

Definition StatusOK : Z := 200.
Definition StatusCreated : Z := 201.
Definition StatusBadRequest : Z := 400.
Definition StatusInternalServerError : Z := 500.

(** [err.Error()]: the text each [errors.New] was built with. *)
Definition Error (e : error) : string :=
  match e with
  | ErrInvalidEvent => "invalid event"
  | ErrFutureTime => "timestamp cannot be in the future"
  | ErrInvalidMetricsQuery => "invalid metrics query"
  | ErrInvalidTimeRange => "invalid time range"
  | ErrInvalidGroupBy => "invalid group_by value"
  | ErrInvalidInterval => "invalid interval for time grouping"
  | errors_New msg => msg
  end.

(** [errors.Is(err, target)]: none of these error values wraps another, so
    it is identity. *)
Definition errors_Is (err target : error) : bool := bool_decide (err = target).

End Http.

(* ===================================================================== *)
(** ** internal/events/adapters/http/fiber *)
(* ===================================================================== *)

Module EventsHTTP.

Import Events Http.

(** The handler's view of the use case. *)
Class StoreEventUseCase (any U : Type) : Type := {
  uc_Execute : StoreEventInput any -> U -> U * (bool * option error);
  uc_BulkCreateEvents :
    list (StoreEventInput any) -> U -> U * (BulkCreateEventsResult * option error)
}.

(** [CreateEventRequest] and [bulkEventItem] have the same fields. *)
Record CreateEventRequest (any : Type) : Type := mkCreateEventRequest {
  req_EventName : string;
  req_Channel : string;
  req_CampaignID : string;
  req_UserID : string;
  req_Timestamp : Z;
  req_Tags : option (list string);
  req_Metadata : option (gmap string any)
}.

Arguments mkCreateEventRequest {any}.
Arguments req_EventName {any}.
Arguments req_Channel {any}.
Arguments req_CampaignID {any}.
Arguments req_UserID {any}.
Arguments req_Timestamp {any}.
Arguments req_Tags {any}.
Arguments req_Metadata {any}.

(** [BulkCreateEventsRequest]; a nil [Events] slice and an empty one are
    both [[]] (the handler only takes its length and ranges over it). *)
Record BulkCreateEventsRequest (any : Type) : Type := mkBulkCreateEventsRequest {
  req_Events : list (CreateEventRequest any)
}.

Arguments mkBulkCreateEventsRequest {any}.
Arguments req_Events {any}.

(** What the handlers serialise: [fiber.Map{"error": ...}],
    [ErrorResponse], [CreateEventResponse], and
    [fiber.Map{"created": ..., "duplicates": ...}]. *)
Inductive Body : Type :=
  | MapError (error_ : string)
  | ErrorResponse (Error_ Message : string)
  | CreateEventResponse (Status Message : string)
  | MapCounts (created duplicates : Z).

Record Response : Type := mkResponse { StatusCode : Z; body : Body }.

Section Handler.

Context {any U : Type} `{!StoreEventUseCase any U}.

(** The input both handlers build from a request item. *)
Definition inputOf (req : CreateEventRequest any) : StoreEventInput any :=
  mkStoreEventInput (req_EventName req) (req_Channel req) (req_CampaignID req)
    (req_UserID req) (req_Timestamp req) (req_Tags req) (req_Metadata req).

(** The switch both handlers run on an error of the use case. *)
Definition errorResponse (err : error) : Response :=
  if errors_Is err ErrInvalidEvent || errors_Is err ErrFutureTime
  then mkResponse StatusBadRequest (ErrorResponse "invalid_event" (Error err))
  else mkResponse StatusInternalServerError (ErrorResponse "internal_server_error" "").

(** (h *EventHandler) CreateEvent; [parsed] is what [c.BodyParser(&req)]
    leaves: the request, or its error. *)
Definition CreateEvent (parsed : CreateEventRequest any + error) : State U Response :=
  match parsed with
  | inr _ => ret (mkResponse StatusBadRequest (MapError "invalid_json"))
  | inl req =>
      let input := inputOf req in
      (out <~ uc_Execute input ;;
       match out with
       | (_, Some err) => ret (errorResponse err)
       | (created, None) =>
           if negb created
           then ret (mkResponse StatusOK (CreateEventResponse "duplicate" ""))
           else ret (mkResponse StatusCreated (CreateEventResponse "created" ""))
       end)%go
  end.

(** (h *EventHandler) BulkCreateEvents. *)
Definition BulkCreateEvents (parsed : BulkCreateEventsRequest any + error)
  : State U Response :=
  match parsed with
  | inr _ => ret (mkResponse StatusBadRequest (MapError "invalid_json"))
  | inl req =>
      if bool_decide (length (req_Events req) = 0%nat)
      then ret (mkResponse StatusBadRequest (MapError "events_list_required"))
      else
        let inputs := map inputOf (req_Events req) in
        (out <~ uc_BulkCreateEvents inputs ;;
         match out with
         | (_, Some err) => ret (errorResponse err)
         | (result, None) =>
             ret (mkResponse StatusCreated
                    (MapCounts (Created result) (Duplicates result)))
         end)%go
  end.

End Handler.

(** The use case behind the handler, as main wires it. *)
Definition useCase {any R : Type} `{!EventRepositoryPort any R} (wallclock : nat -> Z)
  : StoreEventUseCase any (World any R) :=
  {| uc_Execute := Execute wallclock;
     uc_BulkCreateEvents := Events.BulkCreateEvents wallclock |}.

End EventsHTTP.

(* ===================================================================== *)
(** ** internal/metrics/adapters/http/fiber *)
(* ===================================================================== *)

Module MetricsHTTP.

Import Metrics Http.

(** The handler's view of the use case. *)
Class GetMetricsUseCase (U : Type) : Type :=
  uc_Execute : GetMetricsInput -> U -> U * (option AggregatedMetrics * option error).

Record MetricsGroupResponse : Type := mkMetricsGroupResponse {
  resp_Key : string;
  resp_Group_TotalCount : Z;
  resp_Group_UniqueUsers : Z
}.

Record MetricsResponse : Type := mkMetricsResponse {
  resp_EventName : string;
  resp_From : Z;
  resp_To : Z;
  resp_TotalCount : Z;
  resp_UniqueUsers : Z;
  resp_GroupBy : string;
  resp_Groups : list MetricsGroupResponse
}.

Inductive Body : Type :=
  | MapError (error_ : string)
  | ErrorResponse (Error_ Message : string)
  | Metrics (resp : MetricsResponse).

Record Response : Type := mkResponse { StatusCode : Z; body : Body }.

(** What a call of the handler ends in: a response, or the panic of
    reading a field through a nil result. *)
Inductive Outcome : Type :=
  | Responds (r : Response)
  | PanicNilResult.

Section Handler.

Context {U : Type} `{!GetMetricsUseCase U}.

(** [strconv.ParseInt(s, 10, 64)]. *)
Variable ParseInt : string -> Z + error.

(** (h *MetricsHandler) GetMetrics; [Query key] is [c.Query(key, "")]. *)
Definition GetMetrics (Query : string -> string) : State U Outcome :=
  let eventName := Query "event_name" in
  if bool_decide (eventName = "")
  then ret (Responds (mkResponse StatusBadRequest (MapError "event_name is required")))
  else
    let fromStr := Query "from" in
    let toStr := Query "to" in
    if bool_decide (fromStr = "") || bool_decide (toStr = "")
    then ret (Responds (mkResponse StatusBadRequest (MapError "from and to are required")))
    else
      match ParseInt fromStr with
      | inr _ =>
          ret (Responds (mkResponse StatusBadRequest (MapError "invalid 'from' parameter")))
      | inl from =>
          match ParseInt toStr with
          | inr _ =>
              ret (Responds (mkResponse StatusBadRequest
                               (MapError "invalid 'to' parameter")))
          | inl to =>
              let channel := Query "channel" in
              let channelPtr :=
                if bool_decide (channel ≠ "") then Some channel else None in
              let groupBy := Query "group_by" in
              let interval := Query "interval" in
              let input := mkGetMetricsInput eventName from to channelPtr groupBy interval in
              (out <~ uc_Execute input ;;
               match out with
               | (_, Some err) =>
                   if errors_Is err ErrInvalidMetricsQuery
                      || errors_Is err ErrInvalidTimeRange
                      || errors_Is err ErrInvalidGroupBy
                      || errors_Is err ErrInvalidInterval
                   then ret (Responds (mkResponse StatusBadRequest
                                         (ErrorResponse "invalid_event" (Error err))))
                   else ret (Responds (mkResponse StatusInternalServerError
                                         (ErrorResponse "internal_server_error" "")))
               | (None, None) => ret PanicNilResult
               | (Some res, None) =>
                   let groups :=
                     map (fun g => mkMetricsGroupResponse (Key g) (Group_TotalCount g)
                                     (Group_UniqueUsers g)) (Groups res) in
                   ret (Responds (mkResponse StatusOK
                          (Metrics (mkMetricsResponse (EventName res) (From res) (To res)
                                      (TotalCount res) (UniqueUsers res) (GroupBy res)
                                      groups))))
               end)%go
          end
      end.

End Handler.

(** The use case behind the handler, as main wires it. *)
Definition useCase {R : Type} `{!MetricsReaderPort R} : GetMetricsUseCase (World R) :=
  Execute.

End MetricsHTTP.

(* ===================================================================== *)
(** ** The specification's reading of the dedupe key *)
(* ===================================================================== *)

Module Spec.

(** [join("|", eventName, userId, channel, campaignId, floor(eventTime,
    second))], the last coordinate being the event time in whole unix
    seconds, written in decimal. *)
Definition dedupeKey (eventName userId channel campaignId : string)
    (eventTimeSeconds : Z) : string :=
  Join [eventName; userId; channel; campaignId; pretty eventTimeSeconds] "|".

(** EventValidator: MissingField (the code's [ErrInvalidEvent]) when
    eventName, channel or userId is empty; otherwise FutureTimestamp (the
    code's [ErrFutureTime]) when the timestamp is strictly later than the
    wall clock [now], in seconds. *)
Definition validate {any} (now : Z) (i : Events.StoreEventInput any) : option error :=
  if decide (Events.in_EventName i = "" ∨ Events.in_Channel i = ""
             ∨ Events.in_UserID i = "")
  then Some ErrInvalidEvent
  else if decide (Events.in_Timestamp i > now) then Some ErrFutureTime
  else None.

(** The Event of an ingestion input: the input's coordinates, the instant
    of its timestamp, tags and metadata (empty when the input has none), and
    the dedupe key of the invariant. *)
Definition eventOf {any} (i : Events.StoreEventInput any) : Events.Event any :=
  Events.mkEvent (Events.in_EventName i) (Events.in_Channel i)
    (Events.in_CampaignID i) (Events.in_UserID i)
    (UTC (time_Unix (Events.in_Timestamp i)))
    (Some (default [] (Events.in_Tags i)))
    (Some (default ∅ (Events.in_Metadata i)))
    (dedupeKey (Events.in_EventName i) (Events.in_UserID i)
       (Events.in_Channel i) (Events.in_CampaignID i) (Events.in_Timestamp i)).

(** The five coordinates of the dedupe key, and two coordinate tuples that
    agree on four coordinates and differ in the remaining one. *)
Definition coordinates {any} (i : Events.StoreEventInput any) (t : Time)
  : string * string * string * string * Z :=
  (Events.in_EventName i, Events.in_UserID i, Events.in_Channel i,
   Events.in_CampaignID i, Unix t).

(** The arithmetic sum of a sequence of counts. *)
Definition sum (l : list Z) : Z := foldr Z.add 0 l.

(** [totalSum] and [uniqueSum] are, as int64 values, the sums of the counts
    of [groups]. *)
Definition sums_ok (groups : list Metrics.MetricsGroup) (totalSum uniqueSum : Z) : Prop :=
  totalSum = wrap64 (sum (Metrics.Group_TotalCount <$> groups))
  ∧ uniqueSum = wrap64 (sum (Metrics.Group_UniqueUsers <$> groups)).

(** The row a grouped query delivers for a channel group, and for a time
    bucket that starts at [ts]. *)
Definition channelRow (g : Metrics.MetricsGroup) : list MetricsPostgres.Column + error :=
  inl [MetricsPostgres.ColString (Metrics.Key g);
       MetricsPostgres.ColInt64 (Metrics.Group_TotalCount g);
       MetricsPostgres.ColInt64 (Metrics.Group_UniqueUsers g)].

Definition bucketRow (b : Time * Z * Z) : list MetricsPostgres.Column + error :=
  inl [MetricsPostgres.ColTime b.1.1; MetricsPostgres.ColInt64 b.1.2;
       MetricsPostgres.ColInt64 b.2].

Definition differ_in_one (a b : string * string * string * string * Z) : Prop :=
  let '(n1, u1, c1, p1, s1) := a in
  let '(n2, u2, c2, p2, s2) := b in
  (n1 ≠ n2 ∧ u1 = u2 ∧ c1 = c2 ∧ p1 = p2 ∧ s1 = s2)
  ∨ (n1 = n2 ∧ u1 ≠ u2 ∧ c1 = c2 ∧ p1 = p2 ∧ s1 = s2)
  ∨ (n1 = n2 ∧ u1 = u2 ∧ c1 ≠ c2 ∧ p1 = p2 ∧ s1 = s2)
  ∨ (n1 = n2 ∧ u1 = u2 ∧ c1 = c2 ∧ p1 ≠ p2 ∧ s1 = s2)
  ∨ (n1 = n2 ∧ u1 = u2 ∧ c1 = c2 ∧ p1 = p2 ∧ s1 ≠ s2).

End Spec.

(* ===================================================================== *)
(** ** Inputs of the repository's tests, used as examples below *)
(* ===================================================================== *)

Module Fixtures.

(** A clock that stands at 2025-12-07T12:00:00Z. *)
Definition noon : Z := 1765108800.
Definition clock : nat -> Z := fun _ => noon.

Definition input (eventName channel campaignID userID : string) (timestamp : Z)
  : Events.StoreEventInput string :=
  Events.mkStoreEventInput eventName channel campaignID userID timestamp None None.

(** The batch of TestBulkCreateEvents_MixedCreatedAndDuplicate, a minute
    before the clock. *)
Definition batch : list (Events.StoreEventInput string) :=
  [input "product_view" "web" "" "user_1" (noon - 60);
   input "product_view" "web" "" "user_1" (noon - 60);
   input "add_to_cart" "web" "" "user_2" (noon - 60)].

(** The batch of TestBulkCreateEvents_ValidationErrorInOneEvent. *)
Definition batch_with_invalid : list (Events.StoreEventInput string) :=
  [input "product_view" "web" "" "user_1" (noon - 60);
   input "" "web" "" "user_2" (noon - 60);
   input "add_to_cart" "web" "" "user_3" (noon - 60)].

(** A repository that answers created, duplicate, created. *)
Definition bulkWorld : Events.World string (Events.fakeBulkRepo string) :=
  Events.mkWorld 0 (Events.mkFakeBulkRepo [] [true; false; true] None) [].

(** A database that reports [rows] rows affected for every statement. *)
Definition reporting (rows : Z) : EventsPostgres.fakeDB :=
  EventsPostgres.mkFakeDB
    (Some (fun _ _ => inl (EventsPostgres.fakeResult_Result
                             (EventsPostgres.mkFakeResult rows))))
    "" [] false.

Definition dbWorld (rows : Z) : Events.World string EventsPostgres.fakeDB :=
  Events.mkWorld 0 (reporting rows) [].

(** A marshaller for the examples: it succeeds on every map. *)
Definition marshal (m : option (gmap string string)) : string + error := inl "{}".

(** The rows of a query grouped by channel: web 120/50, mobile 80/30. *)
Definition channelRows : MetricsPostgres.RowScanner :=
  MetricsPostgres.mkRowScanner
    [inl [MetricsPostgres.ColString "mobile"; MetricsPostgres.ColInt64 80;
          MetricsPostgres.ColInt64 30];
     inl [MetricsPostgres.ColString "web"; MetricsPostgres.ColInt64 120;
          MetricsPostgres.ColInt64 50]]
    None.

Definition metricsDB : MetricsPostgres.fakeDB :=
  MetricsPostgres.mkFakeDB (fun _ _ => inl channelRows) "" [] false.

Definition byChannel : Metrics.MetricsFilter :=
  Metrics.mkMetricsFilter "product_view" 100 200 None "channel" "".

(** A reader that answers every filter with an empty summary. *)
Definition summaryReader : Metrics.MetricsReaderPort unit :=
  fun f r =>
    (r, (Some (Metrics.mkAggregatedMetrics (Metrics.f_EventName f) (Metrics.f_From f)
                 (Metrics.f_To f) 0 0 (Metrics.f_GroupBy f) []), None)).

Definition metricsWorld : Metrics.World unit := Metrics.mkWorld () [].

(** A repository that answers created to every event. *)
Definition alwaysCreated : Events.fakeEventRepo string :=
  Events.mkFakeEventRepo (fun _ => (true, None)).

Definition createdWorld : Events.World string (Events.fakeEventRepo string) :=
  Events.mkWorld 0 alwaysCreated [].

(** A clock that is set back by two minutes after its third reading. *)
Definition steppingBack : nat -> Z :=
  fun n => if bool_decide (n < 3)%nat then noon else noon - 120.

(** A marshaller that fails on every map. *)
Definition failingMarshal (m : option (gmap string string)) : string + error :=
  inr (errors_New "json: unsupported value").

(** A parser for the examples: it reads "100" and "200" and rejects the
    rest. *)
Definition parse (s : string) : Z + error :=
  if bool_decide (s = "100") then inl 100
  else if bool_decide (s = "200") then inl 200
  else inr (errors_New "strconv.ParseInt: invalid syntax").

(** The query string event_name=product_view&from=100&to=200&group_by=channel. *)
Definition byChannelQuery (key : string) : string :=
  if bool_decide (key = "event_name") then "product_view"
  else if bool_decide (key = "from") then "100"
  else if bool_decide (key = "to") then "200"
  else if bool_decide (key = "group_by") then "channel"
  else "".

(** The same with from=abc. *)
Definition badFromQuery (key : string) : string :=
  if bool_decide (key = "from") then "abc" else byChannelQuery key.

Definition metricsDBWorld : Metrics.World MetricsPostgres.fakeDB :=
  Metrics.mkWorld metricsDB [].

(** A repository without state that answers created to every event. *)
Definition createdPort : Events.EventRepositoryPort string unit :=
  fun _ r => (r, (true, None)).

Definition unitWorld : Events.World string unit := Events.mkWorld 0 () [].

(** Two events a minute before noon. *)
Definition pair : list (Events.StoreEventInput string) :=
  [input "product_view" "web" "" "user_1" (noon - 60);
   input "add_to_cart" "web" "" "user_2" (noon - 60)].

(** Databases that answer every query with one summary row, with no row,
    with a channel row followed by a row that does not scan, and with two
    hourly buckets. *)
Definition answering (rows : list (list MetricsPostgres.Column + error))
  : MetricsPostgres.fakeDB :=
  MetricsPostgres.mkFakeDB (fun _ _ => inl (MetricsPostgres.mkRowScanner rows None))
    "" [] false.

Definition summaryRow : list MetricsPostgres.Column + error :=
  inl [MetricsPostgres.ColInt64 150; MetricsPostgres.ColInt64 40].

Definition mobile : Metrics.MetricsGroup := Metrics.mkMetricsGroup "mobile" 80 30.
Definition web : Metrics.MetricsGroup := Metrics.mkMetricsGroup "web" 120 50.

Definition brokenRows : list (list MetricsPostgres.Column + error) :=
  [Spec.channelRow mobile; inr (errors_New "sql: Scan error on column index 1")].

Definition tenOClock : Time := UTC (time_Unix 1765101600).
Definition elevenOClock : Time := UTC (time_Unix 1765105200).

Definition buckets : list (Time * Z * Z) :=
  [(tenOClock, 100, 40); (elevenOClock, 200, 60)].

Definition noGroup : Metrics.MetricsFilter :=
  Metrics.mkMetricsFilter "product_view" 100 200 None "" "".

Definition byTime : Metrics.MetricsFilter :=
  Metrics.mkMetricsFilter "product_view" 100 200 (Some "web") "time" "hour".

(** A request for a product_view event a minute before the clock. *)
Definition request (eventName : string) : EventsHTTP.CreateEventRequest string :=
  EventsHTTP.mkCreateEventRequest eventName "web" "" "user_1" (noon - 60) None None.

End Fixtures.

(* ===================================================================== *)
(** ** Facts about the Go pieces *)
(* ===================================================================== *)

Section GoFacts.

Lemma wrap64_id z : is_int64 z -> wrap64 z = z.
Proof.
  unfold is_int64, int64_min, int64_max, wrap64. intros Hz.
  rewrite Z.mod_small; lia.
Qed.

Lemma wrap64_range z : is_int64 (wrap64 z).
Proof.
  unfold is_int64, int64_min, int64_max, wrap64.
  pose proof (Z.mod_pos_bound (z + 2 ^ 63) (2 ^ 64)). lia.
Qed.

Lemma wrap64_add_l a b : wrap64 (wrap64 a + b) = wrap64 (a + b).
Proof.
  unfold wrap64. f_equal.
  replace ((a + 2 ^ 63) mod 2 ^ 64 - 2 ^ 63 + b + 2 ^ 63)
    with ((a + 2 ^ 63) mod 2 ^ 64 + b) by lia.
  rewrite Zplus_mod_idemp_l. f_equal. lia.
Qed.

(** [time.Unix(sec, 0).UTC().Unix()] gives [sec] back. *)
Lemma Unix_time_Unix sec : is_int64 sec -> Unix (UTC (time_Unix sec)) = sec.
Proof.
  intros Hs. unfold Unix, UTC, time_Unix, internalToUnix. simpl.
  rewrite wrap64_add_l.
  replace (sec + unixToInternal + - unixToInternal) with sec by lia.
  by apply wrap64_id.
Qed.

Lemma append_cons c (s t : string) : String c s +:+ t = String c (s +:+ t).
Proof. reflexivity. Qed.

Lemma append_nil_r (s : string) : s +:+ "" = s.
Proof. induction s as [|c s IH]; [done | by rewrite append_cons, IH]. Qed.

Lemma length_append (s t : string) :
  String.length (s +:+ t) = (String.length s + String.length t)%nat.
Proof.
  induction s as [|c s IH]; [done |].
  rewrite append_cons. cbn [String.length]. rewrite IH. lia.
Qed.

Lemma append_assoc (s t u : string) : (s +:+ t) +:+ u = s +:+ (t +:+ u).
Proof. induction s as [|c s IH]; [done | by rewrite !append_cons, IH]. Qed.

(** Two strings with a common tail are equal as soon as the whole strings
    are. *)
Lemma append_inv_tail (s1 s2 t : string) : s1 +:+ t = s2 +:+ t -> s1 = s2.
Proof.
  revert s2. induction s1 as [|c s1 IH]; intros [|c2 s2] H.
  - done.
  - apply (f_equal String.length) in H.
    rewrite !length_append in H. cbn [String.length] in H. lia.
  - apply (f_equal String.length) in H.
    rewrite !length_append in H. cbn [String.length] in H. lia.
  - rewrite !append_cons in H. injection H as -> H. f_equal. by apply IH.
Qed.

Lemma append_inv_head (s t1 t2 : string) : s +:+ t1 = s +:+ t2 -> t1 = t2.
Proof. apply String.app_inj. Qed.

End GoFacts.

(* ===================================================================== *)
(** ** The dedupe key *)
(* ===================================================================== *)

Section DedupeKey.

Context {any : Type}.

Implicit Types i : Events.StoreEventInput any.

(** What the [Sprintf] call of [buildDedupeKey] evaluates to. *)
Lemma buildDedupeKey_unfold i t :
  Events.buildDedupeKey i t
  = Events.in_EventName i +:+ "|" +:+ Events.in_UserID i +:+ "|"
    +:+ Events.in_Channel i +:+ "|" +:+ Events.in_CampaignID i +:+ "|"
    +:+ pretty (Unix t).
Proof.
  rewrite <- (append_nil_r (pretty (Unix t))). reflexivity.
Qed.

Lemma buildDedupeKey_spec i t :
  Events.buildDedupeKey i t
  = Spec.dedupeKey (Events.in_EventName i) (Events.in_UserID i)
      (Events.in_Channel i) (Events.in_CampaignID i) (Unix t).
Proof. by rewrite buildDedupeKey_unfold. Qed.

(** C2. [buildDedupeKey] is a function of the five coordinates alone (two
    calls that agree on eventName, userId, channel, campaignId and the
    event time in whole seconds return the same string, whatever the other
    fields are), and two calls whose coordinates agree on four of the five
    and differ in the remaining one return different strings. *)
Theorem buildDedupeKey_deterministic_and_separating i1 i2 t1 t2 :
  (Spec.coordinates i1 t1 = Spec.coordinates i2 t2 ->
   Events.buildDedupeKey i1 t1 = Events.buildDedupeKey i2 t2)
  ∧ (Spec.differ_in_one (Spec.coordinates i1 t1) (Spec.coordinates i2 t2) ->
     Events.buildDedupeKey i1 t1 ≠ Events.buildDedupeKey i2 t2).
Proof.
  rewrite !buildDedupeKey_unfold. unfold Spec.coordinates, Spec.differ_in_one.
  split.
  - intros [= -> -> -> -> ->]. done.
  - intros [(Hne & -> & -> & -> & ->) | [(-> & Hne & -> & -> & ->)
      | [(-> & -> & Hne & -> & ->) | [(-> & -> & -> & Hne & ->)
      | (-> & -> & -> & -> & Hne)]]]] Heq; apply Hne.
    + by apply append_inv_tail in Heq.
    + do 2 apply append_inv_head in Heq. by apply append_inv_tail in Heq.
    + do 4 apply append_inv_head in Heq. by apply append_inv_tail in Heq.
    + do 6 apply append_inv_head in Heq. by apply append_inv_tail in Heq.
    + do 8 apply append_inv_head in Heq. by apply (inj pretty) in Heq.
Qed.

End DedupeKey.

(* ===================================================================== *)
(** ** The ingestion use case *)
(* ===================================================================== *)

Section Ingestion.

Context {any R : Type} `{!Events.EventRepositoryPort any R}.
Variable wallclock : nat -> Z.

Implicit Types (i ev : Events.StoreEventInput any) (w : Events.World any R)
  (evs : list (Events.StoreEventInput any)).

(** [validateInput] computes the validator of the specification against
    the current reading, and takes that reading only when no field is
    missing. *)
Lemma validateInput_run i w :
  Events.validateInput wallclock i w
  = (if decide (Events.in_EventName i = "" ∨ Events.in_Channel i = ""
                ∨ Events.in_UserID i = "") then w else Events.tick w,
     Spec.validate (wallclock (Events.ticks w)) i).
Proof.
  unfold Events.validateInput, Spec.validate, bind, Events.time_Now_Unix, ret.
  destruct (decide (_ ∨ _)) as [Hor|Hor].
  - destruct Hor as [Hf|[Hf|Hf]]; rewrite (bool_decide_eq_true_2 _ Hf);
      by rewrite ?orb_true_r.
  - rewrite !bool_decide_eq_false_2 by tauto. simpl.
    destruct (decide (Events.in_Timestamp i > wallclock (Events.ticks w)));
      [by rewrite bool_decide_eq_true_2 | by rewrite bool_decide_eq_false_2].
Qed.

Lemma validate_None now i :
  Spec.validate now i = None
  <-> Events.in_EventName i ≠ "" ∧ Events.in_Channel i ≠ ""
      ∧ Events.in_UserID i ≠ "" ∧ Events.in_Timestamp i <= now.
Proof.
  unfold Spec.validate. repeat case_decide; split; try done; try tauto; try lia.
Qed.

Lemma validate_Some now i err :
  Spec.validate now i = Some err -> err = ErrInvalidEvent ∨ err = ErrFutureTime.
Proof.
  unfold Spec.validate.
  destruct (decide _); [intros [= <-]; by left |].
  destruct (decide _); [intros [= <-]; by right | done].
Qed.

(** A later reading of the clock does not reject what an earlier accepted. *)
Lemma validate_mono now1 now2 i :
  now1 <= now2 -> Spec.validate now1 i = None -> Spec.validate now2 i = None.
Proof. rewrite !validate_None. intros ? (?&?&?&?). repeat split; try done. lia. Qed.

(** The event [Execute] builds is the event of the specification. *)
Lemma Execute_valid i w :
  is_int64 (Events.in_Timestamp i) ->
  Spec.validate (wallclock (Events.ticks w)) i = None ->
  Events.Execute wallclock i w
  = let e := Spec.eventOf i in
    let (r', out) := Events.InsertEvent e (Events.repo w) in
    (Events.mkWorld (S (Events.ticks w)) r' (Events.calls w ++ [(e, out)]),
     match out with
     | (_, Some err) => (false, Some err)
     | (created, None) => (created, None)
     end).
Proof.
  intros Hts Hv. unfold Events.Execute, bind.
  rewrite validateInput_run, Hv.
  apply validate_None in Hv as (He & Hc & Hu & _).
  destruct (decide _) as [Hor|_]; [exfalso; tauto|].
  unfold Events.repo_InsertEvent, ret, Events.tick. cbn [Events.repo Events.ticks Events.calls].
  cbn [Events.in_EventName Events.in_Channel Events.in_CampaignID Events.in_UserID
       Events.in_Tags Events.in_Metadata].
  assert (Heq : Events.mkEvent (Events.in_EventName i) (Events.in_Channel i)
                  (Events.in_CampaignID i) (Events.in_UserID i)
                  (UTC (time_Unix (Events.in_Timestamp i)))
                  match Events.in_Tags i with None => Some [] | Some t => Some t end
                  match Events.in_Metadata i with None => Some ∅ | Some m => Some m end
                  (Events.buildDedupeKey
                     (Events.mkStoreEventInput (Events.in_EventName i)
                        (Events.in_Channel i) (Events.in_CampaignID i)
                        (Events.in_UserID i) (Events.in_Timestamp i)
                        match Events.in_Tags i with None => Some [] | Some t => Some t end
                        match Events.in_Metadata i with None => Some ∅ | Some m => Some m end)
                     (UTC (time_Unix (Events.in_Timestamp i))))
                = Spec.eventOf i).
  { unfold Spec.eventOf. rewrite buildDedupeKey_spec, Unix_time_Unix by done.
    cbn [Events.in_EventName Events.in_Channel Events.in_CampaignID Events.in_UserID].
    by destruct (Events.in_Tags i), (Events.in_Metadata i). }
  rewrite Heq. cbn zeta.
  destruct (Events.InsertEvent (Spec.eventOf i) (Events.repo w)) as [r' [c [err|]]]; done.
Qed.

Lemma Execute_invalid i w err :
  Spec.validate (wallclock (Events.ticks w)) i = Some err ->
  exists w', Events.Execute wallclock i w = (w', (false, Some err))
    ∧ Events.repo w' = Events.repo w ∧ Events.calls w' = Events.calls w.
Proof.
  intros Hv. unfold Events.Execute, bind. rewrite validateInput_run, Hv.
  unfold ret. eexists; split; [done|]. by case_decide.
Qed.

(** C5. [validateInput] fails with [ErrInvalidEvent] (MissingField) when
    eventName, channel or userId is empty, whatever the timestamp is; with
    all three present it fails with [ErrFutureTime] (FutureTimestamp) when
    the timestamp is strictly later than the reading of the wall clock, in
    seconds, and passes otherwise. *)
Theorem validateInput_field_check_first i w :
  let result := (Events.validateInput wallclock i w).2 in
  let now := wallclock (Events.ticks w) in
  (Events.in_EventName i = "" ∨ Events.in_Channel i = "" ∨ Events.in_UserID i = "" ->
   result = Some ErrInvalidEvent)
  ∧ (Events.in_EventName i ≠ "" -> Events.in_Channel i ≠ "" ->
     Events.in_UserID i ≠ "" -> Events.in_Timestamp i > now ->
     result = Some ErrFutureTime)
  ∧ (Events.in_EventName i ≠ "" -> Events.in_Channel i ≠ "" ->
     Events.in_UserID i ≠ "" -> Events.in_Timestamp i <= now ->
     result = None).
Proof.
  cbn zeta. rewrite validateInput_run. cbn [snd]. unfold Spec.validate.
  repeat split; intros; repeat case_decide; try done; try tauto; lia.
Qed.

(** C1. For a validated input, the event handed to the repository carries
    the input's coordinates, and its dedupe key is eventName, userId,
    channel, campaignId and the event time in whole unix seconds (in
    decimal), in this order, joined by "|". *)
Theorem Execute_dedupe_key_format i w :
  is_int64 (Events.in_Timestamp i) ->
  (Events.validateInput wallclock i w).2 = None ->
  exists e out,
    Events.calls (Events.Execute wallclock i w).1 = Events.calls w ++ [(e, out)]
    ∧ Events.EventName e = Events.in_EventName i
    ∧ Events.UserID e = Events.in_UserID i
    ∧ Events.Channel e = Events.in_Channel i
    ∧ Events.CampaignID e = Events.in_CampaignID i
    ∧ Unix (Events.EventTime e) = Events.in_Timestamp i
    ∧ Events.DedupeKey e
      = Join [Events.EventName e; Events.UserID e; Events.Channel e;
              Events.CampaignID e; pretty (Unix (Events.EventTime e))] "|".
Proof.
  intros Hts Hv. rewrite validateInput_run in Hv. cbn [snd] in Hv.
  rewrite (Execute_valid i w Hts Hv). cbn zeta.
  destruct (Events.InsertEvent _ _) as [r' out].
  exists (Spec.eventOf i), out. cbn.
  rewrite (Unix_time_Unix _ Hts). done.
Qed.

(** C10. For a validated input, the event handed to the repository has the
    empty slice for nil tags and the empty map for nil metadata, and the
    input's tags and metadata otherwise: neither is nil. *)
Theorem Execute_tags_metadata_not_nil i w :
  (Events.validateInput wallclock i w).2 = None ->
  exists e out,
    Events.calls (Events.Execute wallclock i w).1 = Events.calls w ++ [(e, out)]
    ∧ Events.Tags e = Some (default [] (Events.in_Tags i))
    ∧ Events.Metadata e = Some (default ∅ (Events.in_Metadata i))
    ∧ (Events.in_Tags i = None -> Events.Tags e = Some [])
    ∧ (Events.in_Metadata i = None -> Events.Metadata e = Some ∅)
    ∧ (Events.in_Tags i ≠ None -> Events.Tags e = Events.in_Tags i)
    ∧ (Events.in_Metadata i ≠ None -> Events.Metadata e = Events.in_Metadata i).
Proof.
  intros Hv. unfold Events.Execute, bind.
  destruct (Events.validateInput wallclock i w) as [w1 r] eqn:Hrun.
  cbn [snd] in Hv. subst r.
  assert (Hc : Events.calls w1 = Events.calls w).
  { rewrite validateInput_run in Hrun. injection Hrun as <- _. by case_decide. }
  unfold Events.repo_InsertEvent, ret.
  destruct (Events.InsertEvent _ _) as [r' [c oerr]] eqn:Hins.
  eexists _, (c, oerr). rewrite <- Hc.
  split; [by destruct oerr |].
  cbn. destruct (Events.in_Tags i), (Events.in_Metadata i); done.
Qed.

(** *** Bulk ingestion *)

(** During the first loop the [j]-th item is checked against the [j]-th
    reading of the clock taken by the call. *)
Lemma validateAll_pass evs w :
  (forall j ev, evs !! j = Some ev ->
     Spec.validate (wallclock (Events.ticks w + j)%nat) ev = None) ->
  Events.validateAll wallclock evs w
  = (Events.mkWorld (Events.ticks w + length evs)%nat (Events.repo w)
       (Events.calls w), None).
Proof.
  revert w. induction evs as [|ev rest IH]; intros w Hall.
  - cbn. unfold ret. destruct w. cbn. by rewrite Nat.add_0_r.
  - cbn [Events.validateAll]. unfold bind. rewrite validateInput_run.
    pose proof (Hall 0%nat ev eq_refl) as H0. rewrite Nat.add_0_r in H0.
    rewrite H0. apply validate_None in H0 as (? & ? & ? & _).
    destruct (decide _) as [?|_]; [exfalso; tauto|].
    rewrite IH.
    + cbn. do 2 f_equal. lia.
    + intros j ev' Hj. cbn [Events.tick Events.ticks].
      replace (S (Events.ticks w) + j)%nat with (Events.ticks w + S j)%nat by lia.
      by apply Hall.
Qed.

Lemma validateAll_reject evs w :
  (exists j ev err, evs !! j = Some ev
     ∧ Spec.validate (wallclock (Events.ticks w + j)%nat) ev = Some err) ->
  exists w' j0 ev0 err,
    Events.validateAll wallclock evs w = (w', Some err)
    ∧ Events.repo w' = Events.repo w ∧ Events.calls w' = Events.calls w
    ∧ evs !! j0 = Some ev0
    ∧ Spec.validate (wallclock (Events.ticks w + j0)%nat) ev0 = Some err
    ∧ (forall j ev, (j < j0)%nat -> evs !! j = Some ev ->
         Spec.validate (wallclock (Events.ticks w + j)%nat) ev = None).
Proof.
  revert w. induction evs as [|ev rest IH]; intros w (j & ev' & err & Hj & Hbad).
  - done.
  - cbn [Events.validateAll]. unfold bind. rewrite validateInput_run.
    destruct (Spec.validate (wallclock (Events.ticks w)) ev) as [err0|] eqn:Hev.
    + exists (if decide (Events.in_EventName ev = "" ∨ Events.in_Channel ev = ""
                        ∨ Events.in_UserID ev = "") then w else Events.tick w),
        0%nat, ev, err0.
      rewrite Nat.add_0_r. repeat split; try done; try (by case_decide).
      intros ? ? ?. lia.
    + destruct j as [|j].
      { injection Hj as ->. rewrite Nat.add_0_r in Hbad. congruence. }
      pose proof Hev as Hok. apply validate_None in Hok as (? & ? & ? & _).
      destruct (decide _) as [?|_]; [exfalso; tauto|].
      destruct (IH (Events.tick w)) as (w' & j0 & ev0 & e & Hrun & Hr & Hc & Hj0 & He & Hbefore).
      { exists j, ev', err. split; [done|]. cbn [Events.tick Events.ticks].
        by replace (S (Events.ticks w) + j)%nat with (Events.ticks w + S j)%nat by lia. }
      exists w', (S j0), ev0, e. rewrite Hrun.
      cbn [Events.tick Events.ticks] in He.
      replace (S (Events.ticks w) + j0)%nat with (Events.ticks w + S j0)%nat in He by lia.
      repeat split; try done.
      intros [|k] ev1 Hlt Hk.
      * injection Hk as <-. by rewrite Nat.add_0_r.
      * cbn in Hk. specialize (Hbefore k ev1 ltac:(lia) Hk).
        cbn [Events.tick Events.ticks] in Hbefore.
        by replace (S (Events.ticks w) + k)%nat with (Events.ticks w + S k)%nat
          in Hbefore by lia.
Qed.

(** C3. When some item of the batch fails validation (at the reading of the
    clock it is checked against), [BulkCreateEvents] returns a validation
    error, the one of the first failing item, and the repository sees no
    call: its state and the record of calls are as before. *)
Theorem BulkCreateEvents_validation_gate evs w :
  (exists j ev err, evs !! j = Some ev
     ∧ Spec.validate (wallclock (Events.ticks w + j)%nat) ev = Some err) ->
  exists w' j0 ev0 err,
    Events.BulkCreateEvents wallclock evs w = (w', (Events.mkBulkResult 0 0, Some err))
    ∧ (err = ErrInvalidEvent ∨ err = ErrFutureTime)
    ∧ Events.calls w' = Events.calls w
    ∧ Events.repo w' = Events.repo w
    ∧ evs !! j0 = Some ev0
    ∧ Spec.validate (wallclock (Events.ticks w + j0)%nat) ev0 = Some err
    ∧ (forall j ev, (j < j0)%nat -> evs !! j = Some ev ->
         Spec.validate (wallclock (Events.ticks w + j)%nat) ev = None).
Proof.
  intros Hbad.
  destruct (validateAll_reject evs w Hbad)
    as (w' & j0 & ev0 & err & Hrun & Hr & Hc & Hj0 & He & Hbefore).
  exists w', j0, ev0, err. unfold Events.BulkCreateEvents, bind. rewrite Hrun.
  repeat split; try done. by apply validate_Some in He.
Qed.

(** The second loop, from any world and any counters. *)
Lemma storeAll_run evs w res :
  (forall j ev, evs !! j = Some ev ->
     is_int64 (Events.in_Timestamp ev)
     ∧ Spec.validate (wallclock (Events.ticks w + j)%nat) ev = None) ->
  exists w' res' err oklog tail,
    Events.storeAll wallclock evs res w = (w', (res', err))
    ∧ Events.calls w' = Events.calls w ++ oklog ++ tail
    ∧ (oklog ++ tail).*1 = Spec.eventOf <$> take (length (oklog ++ tail)) evs
    ∧ Events.served (Events.repo w) (oklog ++ tail) (Events.repo w')
    ∧ Forall (fun c => c.2.2 = None) oklog
    ∧ Events.Created res'
      = Events.Created res + Z.of_nat (length (filter (fun c => c.2.1 = true) oklog))
    ∧ Events.Duplicates res'
      = Events.Duplicates res + Z.of_nat (length (filter (fun c => c.2.1 = false) oklog))
    ∧ ((err = None ∧ tail = [] ∧ length oklog = length evs)
       ∨ (exists e c x, err = Some x ∧ tail = [(e, (c, Some x))])).
Proof.
  revert w res. induction evs as [|ev rest IH]; intros w res Hall.
  - exists w, res, None, [], []. cbn. rewrite app_nil_r, !Z.add_0_r.
    repeat split; try done; [constructor | by left].
  - destruct (Hall 0%nat ev eq_refl) as [Hts Hv]. rewrite Nat.add_0_r in Hv.
    cbn [Events.storeAll]. unfold bind. rewrite (Execute_valid ev w Hts Hv). cbn zeta.
    destruct (Events.InsertEvent (Spec.eventOf ev) (Events.repo w))
      as [r1 [c [x|]]] eqn:Hins.
    + (* the repository fails on this item *)
      eexists _, res, (Some x), [], [(Spec.eventOf ev, (c, Some x))].
      unfold ret. cbn. rewrite !Z.add_0_r.
      repeat split; try done.
      * econstructor; [exact Hins | constructor].
      * right. by eexists _, _, _.
    + (* created or duplicate: go on with the rest *)
      set (w1 := Events.mkWorld (S (Events.ticks w)) r1
                   (Events.calls w ++ [(Spec.eventOf ev, (c, None))])).
      set (res1 := if c then Events.mkBulkResult (Events.Created res + 1) (Events.Duplicates res)
                   else Events.mkBulkResult (Events.Created res) (Events.Duplicates res + 1)).
      destruct (IH w1 res1) as (w' & res' & err & oklog & tail & Hrun & Hcalls & Hprefix
                                & Hserved & Hok & Hcr & Hdup & Hend).
      { intros j ev' Hj. subst w1. cbn [Events.ticks].
        replace (S (Events.ticks w) + j)%nat with (Events.ticks w + S j)%nat by lia.
        by apply Hall. }
      exists w', res', err, ((Spec.eventOf ev, (c, None)) :: oklog), tail.
      split; [subst res1; by destruct c|].
      split; [rewrite Hcalls; subst w1; cbn; by rewrite <- app_assoc|].
      split; [cbn; by rewrite Hprefix|].
      split; [cbn; econstructor; [exact Hins | exact Hserved]|].
      split; [by constructor|].
      split; [|split].
      * rewrite Hcr. subst res1.
        destruct c; [rewrite filter_cons_True by done | rewrite filter_cons_False by done];
          cbn [Events.Created length]; lia.
      * rewrite Hdup. subst res1.
        destruct c; [rewrite filter_cons_False by done | rewrite filter_cons_True by done];
          cbn [Events.Duplicates length]; lia.
      * destruct Hend as [(-> & -> & Hlen)|Hfail]; [left | by right].
        repeat split; try done. cbn. by rewrite Hlen.
Qed.

(** With a clock that does not run backwards, an item that passed the gate
    passes again when the second loop validates it. *)
Lemma gate_pass_stays_valid evs w :
  (forall m n, (m <= n)%nat -> wallclock m <= wallclock n) ->
  (forall j ev, evs !! j = Some ev ->
     Spec.validate (wallclock (Events.ticks w + j)%nat) ev = None) ->
  forall j ev, evs !! j = Some ev ->
    Spec.validate (wallclock (Events.ticks w + length evs + j)%nat) ev = None.
Proof.
  intros Hmono Hall j ev Hj. eapply validate_mono; [|by apply Hall].
  apply Hmono. lia.
Qed.

(** C8. When every item passes validation, in the first loop and again
    inside the store operation, [BulkCreateEvents] hands the events of the
    items to the repository one at a time, in batch order; [Created] counts
    the calls that answered created and [Duplicates] those that answered
    duplicate; a call that fails ends the loop: its error is returned, it
    is the last call made, and the repository is left as the calls made so
    far put it ([served]: nothing is undone). *)
Theorem BulkCreateEvents_stores_in_order evs w :
  (forall j ev, evs !! j = Some ev ->
     is_int64 (Events.in_Timestamp ev)
     ∧ Spec.validate (wallclock (Events.ticks w + j)%nat) ev = None
     ∧ Spec.validate (wallclock (Events.ticks w + length evs + j)%nat) ev = None) ->
  exists w' res err oklog tail,
    Events.BulkCreateEvents wallclock evs w = (w', (res, err))
    ∧ Events.calls w' = Events.calls w ++ oklog ++ tail
    ∧ (oklog ++ tail).*1 = Spec.eventOf <$> take (length (oklog ++ tail)) evs
    ∧ Events.served (Events.repo w) (oklog ++ tail) (Events.repo w')
    ∧ Forall (fun c => c.2.2 = None) oklog
    ∧ Events.Created res = Z.of_nat (length (filter (fun c => c.2.1 = true) oklog))
    ∧ Events.Duplicates res = Z.of_nat (length (filter (fun c => c.2.1 = false) oklog))
    ∧ ((err = None ∧ tail = [] ∧ length oklog = length evs)
       ∨ (exists e c x, err = Some x ∧ tail = [(e, (c, Some x))])).
Proof.
  intros Hall. unfold Events.BulkCreateEvents, bind.
  rewrite validateAll_pass by (intros j ev Hj; by apply Hall).
  set (w1 := Events.mkWorld _ _ _).
  destruct (storeAll_run evs w1 (Events.mkBulkResult 0 0))
    as (w' & res & err & oklog & tail & Hrun & Hrest).
  { intros j ev Hj. destruct (Hall j ev Hj) as (Hts & _ & Hv). by split. }
  exists w', res, err, oklog, tail. split; [done|]. exact Hrest.
Qed.

End Ingestion.

(* ===================================================================== *)
(** ** The events repository *)
(* ===================================================================== *)

Section EventsRepository.

Context {any D : Type} `{!EventsPostgres.DB D}.
Variable json_Marshal : option (gmap string any) -> string + error.
Variable wallclock : nat -> Z.

Implicit Types (e : Events.Event any) (d : D) (i : Events.StoreEventInput any)
  (w : Events.World any D).

Local Abbreviation InsertEvent :=
  (EventsPostgres.EventRepository_InsertEvent json_Marshal).
Local Abbreviation Execute :=
  (@Events.Execute any D (EventsPostgres.EventRepository json_Marshal) wallclock).
Local Abbreviation validateInput :=
  (@Events.validateInput any D wallclock).
Local Abbreviation storageReport := (EventsPostgres.storageReport json_Marshal).

(** [InsertEvent] answers from the storage report: the fault when there is
    one, otherwise created exactly when the count is positive. *)
Lemma InsertEvent_report e d :
  (InsertEvent e d).2
  = match storageReport e d with
    | inr err => (false, Some err)
    | inl rows => (bool_decide (rows > 0), None)
    end.
Proof.
  unfold EventsPostgres.EventRepository_InsertEvent, EventsPostgres.storageReport.
  destruct (json_Marshal _) as [js|err]; [|done].
  destruct (EventsPostgres.ExecContext _ _ _) as [d' [res|err]]; [|done].
  cbn [snd]. by destruct (EventsPostgres.RowsAffected res).
Qed.

Lemma Execute_report i w :
  is_int64 (Events.in_Timestamp i) ->
  (validateInput i w).2 = None ->
  (Execute i w).2
  = match storageReport (Spec.eventOf i) (Events.repo w) with
    | inr err => (false, Some err)
    | inl rows => (bool_decide (rows > 0), None)
    end.
Proof.
  intros Hts Hv. rewrite validateInput_run in Hv. cbn [snd] in Hv.
  rewrite (Execute_valid wallclock i w Hts Hv). cbn zeta.
  pose proof (InsertEvent_report (Spec.eventOf i) (Events.repo w)) as Hrep.
  unfold Events.InsertEvent, EventsPostgres.EventRepository.
  destruct (InsertEvent _ _) as [d' [c oerr]]. cbn [snd] in *.
  destruct (storageReport _ _); by injection Hrep as -> ->.
Qed.

(** C7. For a validated event, with a storage layer whose row counts are
    counts (not negative): the store operation returns created = false
    with no error exactly when the insert-if-absent reports zero rows
    affected; it returns created = true with no error when a row was
    inserted; it returns an error exactly when the storage layer faults,
    that error, and then created = false. *)
Theorem Execute_created_duplicate_or_fault i w :
  is_int64 (Events.in_Timestamp i) ->
  (validateInput i w).2 = None ->
  let report := storageReport (Spec.eventOf i) (Events.repo w) in
  let outcome := (Execute i w).2 in
  (forall rows, report = inl rows -> 0 <= rows) ->
  (outcome = (false, None) <-> report = inl 0)
  ∧ (forall rows, report = inl rows -> 1 <= rows -> outcome = (true, None))
  ∧ (forall err, outcome.2 = Some err <-> report = inr err)
  ∧ (outcome.2 ≠ None -> outcome.1 = false).
Proof.
  intros Hts Hv report outcome Hcount.
  subst outcome. rewrite (Execute_report i w Hts Hv). fold report.
  destruct report as [rows|err] eqn:Hrep.
  - specialize (Hcount rows eq_refl).
    repeat split.
    + intros [= Hb]. apply bool_decide_eq_false in Hb. f_equal. lia.
    + intros [= ->]. done.
    + intros rows' [= <-] Hpos. by rewrite bool_decide_eq_true_2 by lia.
    + done.
    + done.
    + done.
  - repeat split; try done; naive_solver.
Qed.

(** C9. [InsertEvent] leaves the database as one execution of the insert
    statement leaves it, with eight arguments: the campaign_id argument is
    the untyped nil exactly when the event's CampaignID is empty and the
    CampaignID string otherwise; event name, channel, user id and dedupe key
    go as strings, empty or not.  The dedupe key of an input with an empty
    CampaignID has the empty string between its third and fourth
    separator. *)
Theorem InsertEvent_campaign_id_null_when_empty e d metadataJSON :
  json_Marshal (Events.Metadata e) = inl metadataJSON ->
  (exists campaignID,
     (InsertEvent e d).1
     = (EventsPostgres.ExecContext EventsPostgres.insertEventSQL
          [ArgString (Events.EventName e); ArgString (Events.Channel e);
           campaignID; ArgString (Events.UserID e); ArgTime (Events.EventTime e);
           ArgStringArray (Events.Tags e); ArgBytes metadataJSON;
           ArgString (Events.DedupeKey e)] d).1
     ∧ (campaignID = ArgNil <-> Events.CampaignID e = "")
     ∧ (Events.CampaignID e ≠ "" -> campaignID = ArgString (Events.CampaignID e)))
  ∧ (forall i t, Events.in_CampaignID i = "" ->
       Events.buildDedupeKey i t
       = Join [Events.in_EventName i; Events.in_UserID i; Events.in_Channel i;
               ""; pretty (Unix t)] "|").
Proof.
  intros Hjs. split.
  - unfold EventsPostgres.EventRepository_InsertEvent. rewrite Hjs.
    unfold EventsPostgres.insertArgs, EventsPostgres.pqStringArray.
    destruct (decide (Events.CampaignID e = "")) as [Hc|Hc].
    + rewrite (bool_decide_eq_true_2 _ Hc). exists ArgNil.
      split; [|done].
      destruct (EventsPostgres.ExecContext _ _ _) as [d' [res|err]]; [|done].
      by destruct (EventsPostgres.RowsAffected res).
    + rewrite (bool_decide_eq_false_2 _ Hc). exists (ArgString (Events.CampaignID e)).
      split; [|done].
      destruct (EventsPostgres.ExecContext _ _ _) as [d' [res|err]]; [|done].
      by destruct (EventsPostgres.RowsAffected res).
  - intros i t Hc. rewrite buildDedupeKey_spec, Hc. done.
Qed.

End EventsRepository.

(** *** The events table behind the repository *)

Section EventsTable.

Context {any : Type}.
Variable json_Marshal : option (gmap string any) -> string + error.
Variable wallclock : nat -> Z.

Implicit Types (e : Events.Event any) (tbl : EventsPostgres.eventsTable)
  (i : Events.StoreEventInput any) (w : Events.World any EventsPostgres.eventsTable).

Local Abbreviation InsertEvent :=
  (EventsPostgres.EventRepository_InsertEvent (D := EventsPostgres.eventsTable)
     json_Marshal).
Local Abbreviation Execute :=
  (@Events.Execute any EventsPostgres.eventsTable
     (EventsPostgres.EventRepository json_Marshal) wallclock).
Local Abbreviation has_key e tbl :=
  (Exists (fun row => EventsPostgres.dedupe_key_of row
                      = Some (ArgString (Events.DedupeKey e))) tbl).

(** On the table, the insert answers duplicate when a row with the event's
    dedupe key is there and leaves the table alone; otherwise it appends the
    row and answers created. *)
Lemma InsertEvent_on_table e tbl metadataJSON :
  json_Marshal (Events.Metadata e) = inl metadataJSON ->
  (has_key e tbl -> InsertEvent e tbl = (tbl, (false, None)))
  ∧ (¬ has_key e tbl ->
     InsertEvent e tbl
     = (tbl ++ [EventsPostgres.insertArgs e metadataJSON], (true, None))).
Proof.
  intros Hjs. unfold EventsPostgres.EventRepository_InsertEvent. rewrite Hjs.
  unfold EventsPostgres.ExecContext, EventsPostgres.eventsTable_DB.
  rewrite bool_decide_eq_true_2 by done.
  change (EventsPostgres.dedupe_key_of (EventsPostgres.insertArgs e metadataJSON))
    with (Some (ArgString (Events.DedupeKey e))).
  split; intros Hk.
  - by rewrite (bool_decide_eq_true_2 _ Hk).
  - by rewrite (bool_decide_eq_false_2 _ Hk).
Qed.

(** Storing the same coordinates twice: created, then duplicate, and one
    row more in the table. *)
Lemma store_twice_created_then_duplicate i1 i2 w js1 js2 :
  is_int64 (Events.in_Timestamp i1) ->
  Events.in_EventName i1 = Events.in_EventName i2 ->
  Events.in_UserID i1 = Events.in_UserID i2 ->
  Events.in_Channel i1 = Events.in_Channel i2 ->
  Events.in_CampaignID i1 = Events.in_CampaignID i2 ->
  Events.in_Timestamp i1 = Events.in_Timestamp i2 ->
  Spec.validate (wallclock (Events.ticks w)) i1 = None ->
  Spec.validate (wallclock (S (Events.ticks w))) i2 = None ->
  json_Marshal (Events.Metadata (Spec.eventOf i1)) = inl js1 ->
  json_Marshal (Events.Metadata (Spec.eventOf i2)) = inl js2 ->
  ¬ has_key (Spec.eventOf i1) (Events.repo w) ->
  exists w1 w2,
    Execute i1 w = (w1, (true, None))
    ∧ Execute i2 w1 = (w2, (false, None))
    ∧ Events.repo w2
      = Events.repo w ++ [EventsPostgres.insertArgs (Spec.eventOf i1) js1].
Proof.
  intros Hts Hn Hu Hc Hp Ht Hv1 Hv2 Hjs1 Hjs2 Hfresh.
  assert (Hkey : Events.DedupeKey (Spec.eventOf i2) = Events.DedupeKey (Spec.eventOf i1)).
  { cbn. by rewrite Hn, Hu, Hc, Hp, Ht. }
  rewrite (Execute_valid wallclock i1 w Hts Hv1). cbn zeta.
  unfold Events.InsertEvent at 1, EventsPostgres.EventRepository at 1.
  rewrite (proj2 (InsertEvent_on_table _ _ _ Hjs1) Hfresh).
  eexists _, _. split; [reflexivity|].
  rewrite Execute_valid; [|by rewrite <- Ht|exact Hv2]. cbn zeta.
  cbn [Events.repo]. unfold Events.InsertEvent, EventsPostgres.EventRepository.
  rewrite (proj1 (InsertEvent_on_table _ _ _ Hjs2)); [done|].
  rewrite Hkey. apply Exists_app. right. by constructor.
Qed.

End EventsTable.

(* ===================================================================== *)
(** ** The metrics query use case *)
(* ===================================================================== *)

Section MetricsQuery.

Context {R : Type} `{!Metrics.MetricsReaderPort R}.

Implicit Types (i : Metrics.GetMetricsInput) (w : Metrics.World R).

(** C4. [Execute] checks in a fixed order and reports one error: an empty
    eventName gives [ErrInvalidMetricsQuery]; otherwise from <= 0, to <= 0
    or from > to gives [ErrInvalidTimeRange] (from = to passes); otherwise
    group_by "" and "channel" pass whatever the interval is, group_by "time"
    passes with interval "hour" or "day" and gives [ErrInvalidInterval] with
    any other, and any other group_by gives [ErrInvalidGroupBy].  On a
    failure the reader is not queried; when all checks pass the reader is
    queried once, with the input's field values, and its answer is the
    result. *)
Theorem Execute_validation_precedence i w :
  let run := Metrics.Execute i w in
  let filter :=
    Metrics.mkMetricsFilter (Metrics.in_EventName i) (Metrics.in_From i)
      (Metrics.in_To i) (Metrics.in_Channel i) (Metrics.in_GroupBy i)
      (Metrics.in_Interval i) in
  let forwarded :=
    let (r', answer) := Metrics.QueryMetrics filter (Metrics.reader w) in
    (Metrics.mkWorld r' (Metrics.queries w ++ [filter]),
     match answer with
     | (_, Some err) => (None, Some err)
     | (result, None) => (result, None)
     end) in
  (Metrics.in_EventName i = "" -> run = (w, (None, Some ErrInvalidMetricsQuery)))
  ∧ (Metrics.in_EventName i ≠ "" ->
     Metrics.in_From i <= 0 ∨ Metrics.in_To i <= 0 ∨ Metrics.in_From i > Metrics.in_To i ->
     run = (w, (None, Some ErrInvalidTimeRange)))
  ∧ (Metrics.in_EventName i ≠ "" ->
     0 < Metrics.in_From i -> 0 < Metrics.in_To i ->
     Metrics.in_From i <= Metrics.in_To i ->
     (Metrics.in_GroupBy i = "" ∨ Metrics.in_GroupBy i = "channel" -> run = forwarded)
     ∧ (Metrics.in_GroupBy i = "time" ->
        Metrics.in_Interval i = "hour" ∨ Metrics.in_Interval i = "day" ->
        run = forwarded)
     ∧ (Metrics.in_GroupBy i = "time" ->
        Metrics.in_Interval i ≠ "hour" -> Metrics.in_Interval i ≠ "day" ->
        run = (w, (None, Some ErrInvalidInterval)))
     ∧ (Metrics.in_GroupBy i ≠ "" -> Metrics.in_GroupBy i ≠ "channel" ->
        Metrics.in_GroupBy i ≠ "time" ->
        run = (w, (None, Some ErrInvalidGroupBy)))).
Proof.
  cbn zeta. unfold Metrics.Execute.
  assert (Hfwd : forall f,
    (out <~ Metrics.reader_QueryMetrics f ;;
     match out with
     | (_, Some err) => ret (None, Some err)
     | (result, None) => ret (result, None)
     end)%go w
    = let (r', answer) := Metrics.QueryMetrics f (Metrics.reader w) in
      (Metrics.mkWorld r' (Metrics.queries w ++ [f]),
       match answer with
       | (_, Some err) => (None, Some err)
       | (result, None) => (result, None)
       end)).
  { intros f. unfold bind, Metrics.reader_QueryMetrics, ret.
    by destruct (Metrics.QueryMetrics f (Metrics.reader w)) as [r' [res [err|]]]. }
  split; [|split].
  - intros He. by rewrite (bool_decide_eq_true_2 _ He).
  - intros He Hrange. rewrite (bool_decide_eq_false_2 _ He).
    destruct Hrange as [Hr|[Hr|Hr]]; rewrite (bool_decide_eq_true_2 _ Hr);
      by rewrite ?orb_true_r.
  - intros He Hfrom Hto Hle. rewrite (bool_decide_eq_false_2 _ He).
    rewrite !bool_decide_eq_false_2 by lia. cbn [orb].
    repeat split.
    + intros [Hg|Hg]; rewrite Hg; cbn; apply Hfwd.
    + intros Hg [Hi|Hi]; rewrite Hg, Hi; cbn; apply Hfwd.
    + intros Hg Hh Hd. rewrite Hg. cbn.
      by rewrite (bool_decide_eq_true_2 _ Hh), (bool_decide_eq_true_2 _ Hd).
    + intros H1 H2 H3. by rewrite !bool_decide_eq_false_2.
Qed.

End MetricsQuery.

(* ===================================================================== *)
(** ** The metrics repository *)
(* ===================================================================== *)

Section MetricsRepository.

Context {D : Type} `{!MetricsPostgres.DB D}.
Variable Format_RFC3339 : Time -> string.

Implicit Types (f : Metrics.MetricsFilter) (d : D).

Local Abbreviation QueryMetrics :=
  (MetricsPostgres.MetricsRepository_QueryMetrics Format_RFC3339).

Lemma sum_app (l1 l2 : list Z) : Spec.sum (l1 ++ l2) = Spec.sum l1 + Spec.sum l2.
Proof. unfold Spec.sum. induction l1 as [|x l1 IH]; cbn; [done | rewrite IH; lia]. Qed.

Local Abbreviation sums_ok := Spec.sums_ok.

Lemma sums_ok_nil : sums_ok [] 0 0.
Proof. by split. Qed.

Lemma sums_ok_snoc groups totalSum uniqueSum g :
  sums_ok groups totalSum uniqueSum ->
  sums_ok (groups ++ [g])
    (wrap64 (totalSum + Metrics.Group_TotalCount g))
    (wrap64 (uniqueSum + Metrics.Group_UniqueUsers g)).
Proof.
  intros [-> ->]. unfold Spec.sums_ok.
  rewrite !fmap_app, !sum_app, !wrap64_add_l. cbn. by rewrite !Z.add_0_r.
Qed.

Lemma scanChannelRows_sums rows groups0 t0 u0 groups t u :
  MetricsPostgres.scanChannelRows rows groups0 t0 u0 = inl (groups, t, u) ->
  sums_ok groups0 t0 u0 -> sums_ok groups t u.
Proof.
  revert groups0 t0 u0. induction rows as [|row rest IH]; intros groups0 t0 u0 Hrun Hok.
  - by injection Hrun as <- <- <-.
  - cbn in Hrun.
    destruct row as [[|[ch| |] [|[|total|] [|[|unique|] [|]]]]|err]; try done.
    apply IH in Hrun; [done|].
    by apply (sums_ok_snoc _ _ _ (Metrics.mkMetricsGroup ch total unique)).
Qed.

Lemma scanTimeRows_sums rows groups0 t0 u0 groups t u :
  MetricsPostgres.scanTimeRows Format_RFC3339 rows groups0 t0 u0 = inl (groups, t, u) ->
  sums_ok groups0 t0 u0 -> sums_ok groups t u.
Proof.
  revert groups0 t0 u0. induction rows as [|row rest IH]; intros groups0 t0 u0 Hrun Hok.
  - by injection Hrun as <- <- <-.
  - cbn in Hrun.
    destruct row as [[|[| |ts] [|[|total|] [|[|unique|] [|]]]]|err]; try done.
    apply IH in Hrun; [done|].
    by apply (sums_ok_snoc _ _ _
                (Metrics.mkMetricsGroup (Format_RFC3339 (UTC ts)) total unique)).
Qed.

(** Every result of a grouped query carries, as int64 values, the sums over
    its groups. *)
Lemma QueryMetrics_grouped_sums f d d' res :
  Metrics.f_GroupBy f = "channel" ∨ Metrics.f_GroupBy f = "time" ->
  QueryMetrics f d = (d', (Some res, None)) ->
  sums_ok (Metrics.Groups res) (Metrics.TotalCount res) (Metrics.UniqueUsers res).
Proof.
  intros Hmode. unfold MetricsPostgres.MetricsRepository_QueryMetrics.
  cbn zeta.
  set (q := match Metrics.f_Channel f with Some _ => _ | None => _ end).
  destruct q as [where_ args].
  destruct Hmode as [Hg|Hg]; rewrite Hg; cbn [bool_decide decide_rel].
  - change (bool_decide ("channel" = "")) with false.
    change (bool_decide ("channel" = "channel")) with true. cbn iota.
    unfold MetricsPostgres.queryGroupByChannel.
    destruct (MetricsPostgres.QueryContext _ _ _) as [d1 [rows|err]]; [|done].
    destruct (MetricsPostgres.scanChannelRows _ _ _ _) as [[[groups t] u]|err] eqn:Hscan;
      [|done].
    destruct (MetricsPostgres.iterErr rows); [done|].
    intros [= <- <-]. cbn.
    eapply scanChannelRows_sums; [exact Hscan | apply sums_ok_nil].
  - change (bool_decide ("time" = "")) with false.
    change (bool_decide ("time" = "channel")) with false.
    change (bool_decide ("time" = "time")) with true. cbn iota.
    unfold MetricsPostgres.queryGroupByTime.
    destruct (MetricsPostgres.QueryContext _ _ _) as [d1 [rows|err]]; [|done].
    destruct (MetricsPostgres.scanTimeRows _ _ _ _ _) as [[[groups t] u]|err] eqn:Hscan;
      [|done].
    destruct (MetricsPostgres.iterErr rows); [done|].
    intros [= <- <-]. cbn.
    eapply scanTimeRows_sums; [exact Hscan | apply sums_ok_nil].
Qed.

(** The loops collect every row that scans, in order. *)
Lemma scanChannelRows_collects gs groups0 t0 u0 :
  exists t u,
    MetricsPostgres.scanChannelRows (Spec.channelRow <$> gs) groups0 t0 u0
    = inl (groups0 ++ gs, t, u).
Proof.
  revert groups0 t0 u0. induction gs as [|[k c n] gs IH]; intros groups0 t0 u0.
  - exists t0, u0. cbn. by rewrite app_nil_r.
  - cbn. destruct (IH (groups0 ++ [Metrics.mkMetricsGroup k c n])
                      (wrap64 (t0 + c)) (wrap64 (u0 + n))) as (t & u & ->).
    exists t, u. by rewrite <- app_assoc.
Qed.

Lemma scanTimeRows_collects bs groups0 t0 u0 :
  exists t u,
    MetricsPostgres.scanTimeRows Format_RFC3339 (Spec.bucketRow <$> bs) groups0 t0 u0
    = inl (groups0
           ++ ((fun b : Time * Z * Z =>
                  Metrics.mkMetricsGroup (Format_RFC3339 (UTC b.1.1)) b.1.2 b.2) <$> bs),
           t, u).
Proof.
  revert groups0 t0 u0. induction bs as [|[[ts c] n] bs IH]; intros groups0 t0 u0.
  - exists t0, u0. cbn. by rewrite app_nil_r.
  - cbn. destruct (IH (groups0 ++ [Metrics.mkMetricsGroup (Format_RFC3339 (UTC ts)) c n])
                      (wrap64 (t0 + c)) (wrap64 (u0 + n))) as (t & u & ->).
    exists t, u. by rewrite <- app_assoc.
Qed.



End MetricsRepository.

(* ===================================================================== *)
(** ** The theorems at the inputs of the tests *)
(* ===================================================================== *)

Import Fixtures.

Lemma is_int64_before_noon : is_int64 (noon - 60).
Proof. unfold is_int64, int64_min, int64_max, noon. lia. Defined.

(** A validated product_view event reaches the repository with the key
    product_view|user_1|web|cmp_1|<seconds>. *)
Lemma Execute_dedupe_key_format_witness :
  let i := input "product_view" "web" "cmp_1" "user_1" (noon - 60) in
  exists e out,
    Events.calls (Events.Execute clock i bulkWorld).1 = Events.calls bulkWorld ++ [(e, out)]
    ∧ Events.EventName e = "product_view"
    ∧ Events.UserID e = "user_1"
    ∧ Events.Channel e = "web"
    ∧ Events.CampaignID e = "cmp_1"
    ∧ Unix (Events.EventTime e) = noon - 60
    ∧ Events.DedupeKey e
      = Join [Events.EventName e; Events.UserID e; Events.Channel e;
              Events.CampaignID e; pretty (Unix (Events.EventTime e))] "|".
Proof.
  exact (Execute_dedupe_key_format clock
           (input "product_view" "web" "cmp_1" "user_1" (noon - 60)) bulkWorld
           is_int64_before_noon eq_refl).
Defined.

Example dedupe_key_of_product_view :
  Events.buildDedupeKey (input "product_view" "web" "cmp_1" "user_1" (noon - 60))
    (UTC (time_Unix (noon - 60)))
  = "product_view|user_1|web|cmp_1|1765108740".
Proof. vm_compute. reflexivity. Qed.

(** Same coordinates, other tags: the same key.  An empty against a
    non-empty campaignId: different keys. *)
Lemma buildDedupeKey_deterministic_and_separating_witness :
  let t := UTC (time_Unix (noon - 60)) in
  Events.buildDedupeKey (input "product_view" "web" "" "user_1" (noon - 60)) t
  = Events.buildDedupeKey
      (Events.mkStoreEventInput (any := string) "product_view" "web" "" "user_1" 0
         (Some ["a"]) None) t
  ∧ Events.buildDedupeKey (input "product_view" "web" "" "user_1" (noon - 60)) t
    ≠ Events.buildDedupeKey (input "product_view" "web" "cmp_1" "user_1" (noon - 60)) t.
Proof.
  cbn zeta. split.
  - apply (proj1 (buildDedupeKey_deterministic_and_separating _ _ _ _)). reflexivity.
  - apply (proj2 (buildDedupeKey_deterministic_and_separating _ _ _ _)).
    right; right; right; left. repeat split; discriminate.
Defined.

(** [valid, {eventName: ""}, valid]: the error of the second item, and no
    call to the repository. *)
Lemma BulkCreateEvents_validation_gate_witness :
  exists w' j0 ev0 err,
    Events.BulkCreateEvents clock batch_with_invalid bulkWorld
    = (w', (Events.mkBulkResult 0 0, Some err))
    ∧ (err = ErrInvalidEvent ∨ err = ErrFutureTime)
    ∧ Events.calls w' = Events.calls bulkWorld
    ∧ Events.repo w' = Events.repo bulkWorld
    ∧ batch_with_invalid !! j0 = Some ev0
    ∧ Spec.validate (clock (Events.ticks bulkWorld + j0)%nat) ev0 = Some err
    ∧ (forall j ev, (j < j0)%nat -> batch_with_invalid !! j = Some ev ->
         Spec.validate (clock (Events.ticks bulkWorld + j)%nat) ev = None).
Proof.
  apply (BulkCreateEvents_validation_gate clock batch_with_invalid bulkWorld).
  exists 1%nat, (input "" "web" "" "user_2" (noon - 60)), ErrInvalidEvent.
  split; reflexivity.
Defined.

Example bulk_with_invalid_item :
  (Events.BulkCreateEvents clock batch_with_invalid bulkWorld).2
  = (Events.mkBulkResult 0 0, Some ErrInvalidEvent)
  ∧ Events.InsertCalls
      (Events.repo (Events.BulkCreateEvents clock batch_with_invalid bulkWorld).1) = [].
Proof. split; vm_compute; reflexivity. Qed.

(** {eventName: "", timestamp: future}: MissingField. *)
Lemma validateInput_field_check_first_witness :
  (Events.validateInput clock (input "" "web" "" "user_1" (noon + 300)) bulkWorld).2
  = Some ErrInvalidEvent.
Proof.
  apply (proj1 (validateInput_field_check_first clock
                  (input "" "web" "" "user_1" (noon + 300)) bulkWorld)).
  left. reflexivity.
Defined.

Example future_timestamp_rejected :
  (Events.validateInput clock (input "product_view" "web" "" "user_1" (noon + 300))
     bulkWorld).2 = Some ErrFutureTime.
Proof. reflexivity. Qed.

(** Created, duplicate, created: counters 2 and 1, three calls. *)
Lemma BulkCreateEvents_stores_in_order_witness :
  exists w' res err oklog tail,
    Events.BulkCreateEvents clock batch bulkWorld = (w', (res, err))
    ∧ Events.calls w' = Events.calls bulkWorld ++ oklog ++ tail
    ∧ (oklog ++ tail).*1 = Spec.eventOf <$> take (length (oklog ++ tail)) batch
    ∧ Events.served (Events.repo bulkWorld) (oklog ++ tail) (Events.repo w')
    ∧ Forall (fun c => c.2.2 = None) oklog
    ∧ Events.Created res = Z.of_nat (length (filter (fun c => c.2.1 = true) oklog))
    ∧ Events.Duplicates res = Z.of_nat (length (filter (fun c => c.2.1 = false) oklog))
    ∧ ((err = None ∧ tail = [] ∧ length oklog = length batch)
       ∨ (exists e c x, err = Some x ∧ tail = [(e, (c, Some x))])).
Proof.
  apply (BulkCreateEvents_stores_in_order clock batch bulkWorld).
  intros [|[|[|j]]] ev Hj; try discriminate Hj; injection Hj as <-;
    (split; [exact is_int64_before_noon | split; reflexivity]).
Defined.

Example bulk_created_duplicate_created :
  (Events.BulkCreateEvents clock batch bulkWorld).2 = (Events.mkBulkResult 2 1, None)
  ∧ length (Events.calls (Events.BulkCreateEvents clock batch bulkWorld).1) = 3%nat.
Proof. split; vm_compute; reflexivity. Qed.

(** Nil tags and nil metadata reach the repository as the empty slice and
    the empty map. *)
Lemma Execute_tags_metadata_not_nil_witness :
  let i := input "product_view" "web" "" "user_1" (noon - 60) in
  exists e out,
    Events.calls (Events.Execute clock i bulkWorld).1 = Events.calls bulkWorld ++ [(e, out)]
    ∧ Events.Tags e = Some (default [] (Events.in_Tags i))
    ∧ Events.Metadata e = Some (default ∅ (Events.in_Metadata i))
    ∧ (Events.in_Tags i = None -> Events.Tags e = Some [])
    ∧ (Events.in_Metadata i = None -> Events.Metadata e = Some ∅)
    ∧ (Events.in_Tags i ≠ None -> Events.Tags e = Events.in_Tags i)
    ∧ (Events.in_Metadata i ≠ None -> Events.Metadata e = Events.in_Metadata i).
Proof.
  exact (Execute_tags_metadata_not_nil clock
           (input "product_view" "web" "" "user_1" (noon - 60)) bulkWorld eq_refl).
Defined.

(** filter{from: 200, to: 100}: InvalidTimeRange, whatever the grouping. *)
Lemma Execute_validation_precedence_witness :
  Metrics.Execute (MetricsReaderPort0 := summaryReader)
    (Metrics.mkGetMetricsInput "product_view" 200 100 None "minute" "") metricsWorld
  = (metricsWorld, (None, Some ErrInvalidTimeRange)).
Proof.
  apply (proj1 (proj2 (Execute_validation_precedence (H := summaryReader)
                         (Metrics.mkGetMetricsInput "product_view" 200 100 None "minute" "")
                         metricsWorld))).
  - discriminate.
  - right; right. reflexivity.
Defined.

Example metrics_filter_examples :
  let run i := (Metrics.Execute (MetricsReaderPort0 := summaryReader) i metricsWorld).2.2 in
  run (Metrics.mkGetMetricsInput "product_view" 100 100 None "" "") = None
  ∧ run (Metrics.mkGetMetricsInput "" 200 100 None "minute" "") = Some ErrInvalidMetricsQuery
  ∧ run (Metrics.mkGetMetricsInput "product_view" 100 200 None "time" "") = Some ErrInvalidInterval
  ∧ run (Metrics.mkGetMetricsInput "product_view" 100 200 None "time" "hour") = None
  ∧ run (Metrics.mkGetMetricsInput "product_view" 100 200 None "channel" "week") = None
  ∧ run (Metrics.mkGetMetricsInput "product_view" 100 200 None "minute" "") = Some ErrInvalidGroupBy.
Proof. repeat split; reflexivity. Qed.


(** Zero rows affected: duplicate, and no error. *)
Lemma Execute_created_duplicate_or_fault_witness :
  (Events.Execute (EventRepositoryPort0 := EventsPostgres.EventRepository marshal) clock
     (input "product_view" "web" "" "user_1" (noon - 60)) (dbWorld 0)).2
  = (false, None).
Proof.
  refine (proj2 (proj1 (Execute_created_duplicate_or_fault marshal clock
                          (input "product_view" "web" "" "user_1" (noon - 60)) (dbWorld 0)
                          is_int64_before_noon eq_refl _)) _).
  - intros rows Hr. vm_compute in Hr. injection Hr as <-. lia.
  - reflexivity.
Defined.

Example one_row_affected_is_created :
  (Events.Execute (EventRepositoryPort0 := EventsPostgres.EventRepository marshal) clock
     (input "product_view" "web" "" "user_1" (noon - 60)) (dbWorld 1)).2
  = (true, None).
Proof. reflexivity. Qed.

(** An event without campaign: the third argument is nil, the others are
    strings. *)
Lemma InsertEvent_campaign_id_null_when_empty_witness :
  let e := Spec.eventOf (input "product_view" "web" "" "user_1" (noon - 60)) in
  (exists campaignID,
     (EventsPostgres.EventRepository_InsertEvent marshal e (reporting 1)).1
     = (EventsPostgres.ExecContext EventsPostgres.insertEventSQL
          [ArgString (Events.EventName e); ArgString (Events.Channel e);
           campaignID; ArgString (Events.UserID e); ArgTime (Events.EventTime e);
           ArgStringArray (Events.Tags e); ArgBytes "{}";
           ArgString (Events.DedupeKey e)] (reporting 1)).1
     ∧ (campaignID = ArgNil <-> Events.CampaignID e = "")
     ∧ (Events.CampaignID e ≠ "" -> campaignID = ArgString (Events.CampaignID e)))
  ∧ (forall (i : Events.StoreEventInput string) t, Events.in_CampaignID i = "" ->
       Events.buildDedupeKey i t
       = Join [Events.in_EventName i; Events.in_UserID i; Events.in_Channel i;
               ""; pretty (Unix t)] "|").
Proof.
  exact (InsertEvent_campaign_id_null_when_empty marshal
           (Spec.eventOf (input "product_view" "web" "" "user_1" (noon - 60)))
           (reporting 1) "{}" eq_refl).
Defined.

Example campaign_argument_recorded :
  EventsPostgres.lastArgs
    (EventsPostgres.EventRepository_InsertEvent marshal
       (Spec.eventOf (input "product_view" "web" "" "user_1" (noon - 60)))
       (reporting 1)).1 !! 2%nat = Some ArgNil
  ∧ EventsPostgres.lastArgs
      (EventsPostgres.EventRepository_InsertEvent marshal
         (Spec.eventOf (input "product_view" "web" "cmp_1" "user_1" (noon - 60)))
         (reporting 1)).1 !! 2%nat = Some (ArgString "cmp_1").
Proof. split; reflexivity. Qed.

(* ===================================================================== *)
(** ** More on the ingestion use case *)
(* ===================================================================== *)

Section IngestionMore.

Context {any R : Type} `{!Events.EventRepositoryPort any R}.
Variable wallclock : nat -> Z.

Implicit Types (i ev : Events.StoreEventInput any) (w : Events.World any R)
  (evs : list (Events.StoreEventInput any)).

(** X1. An input that [validateInput] rejects goes no further: [Execute]
    returns created = false with that error, which is one of the two
    validation errors, and the repository is not called. *)
Theorem Execute_invalid_input_stops_before_repository i w err :
  (Events.validateInput wallclock i w).2 = Some err ->
  exists w', Events.Execute wallclock i w = (w', (false, Some err))
    ∧ (err = ErrInvalidEvent ∨ err = ErrFutureTime)
    ∧ Events.repo w' = Events.repo w
    ∧ Events.calls w' = Events.calls w.
Proof.
  intros Hv. rewrite validateInput_run in Hv. cbn [snd] in Hv.
  destruct (Execute_invalid wallclock i w err Hv) as (w' & Hrun & Hr & Hc).
  exists w'. repeat split; try done. by apply validate_Some in Hv.
Qed.

(** What one [Execute] does to the record of calls, whatever the input. *)
Lemma Execute_cases i w :
  exists w1 c oerr,
    Events.Execute wallclock i w = (w1, (c, oerr))
    ∧ ((oerr ≠ None ∧ c = false
        ∧ (Events.calls w1 = Events.calls w
           ∨ exists x, Events.calls w1 = Events.calls w ++ [x]))
       ∨ (oerr = None
          ∧ exists e, Events.calls w1 = Events.calls w ++ [(e, (c, None))])).
Proof.
  unfold Events.Execute, bind. rewrite validateInput_run.
  destruct (Spec.validate _ i) as [err|].
  - unfold ret. eexists _, false, (Some err). split; [done|].
    left. repeat split; [done|]. left. by case_decide.
  - unfold Events.repo_InsertEvent, ret.
    destruct (Events.InsertEvent _ _) as [r1 [c [err|]]].
    + eexists _, false, (Some err). split; [done|].
      left. repeat split; [done|]. right. eexists. cbn. by case_decide.
    + eexists _, c, None. split; [done|].
      right. split; [done|]. eexists. cbn. by case_decide.
Qed.

(** X2. [Execute] never reports created together with an error, even when the
    repository does; it calls the repository at most once; and a nil error
    means that one call was made and answered, without error, with the
    flag that is returned. *)
Theorem Execute_outcome_shape i w :
  let run := Events.Execute wallclock i w in
  (run.2.2 ≠ None -> run.2.1 = false)
  ∧ (run.2.2 = None ->
     exists e, Events.calls run.1 = Events.calls w ++ [(e, (run.2.1, None))])
  ∧ (Events.calls run.1 = Events.calls w
     ∨ exists x, Events.calls run.1 = Events.calls w ++ [x]).
Proof.
  cbn zeta. destruct (Execute_cases i w) as (w1 & c & oerr & -> & Hcase). cbn.
  destruct Hcase as [(Hne & -> & Hcalls)|(-> & e & Hcalls)].
  - repeat split; try done.
  - repeat split; try done; [by exists e | right; by eexists].
Qed.

Lemma validateAll_leaves_repository evs w :
  Events.calls (Events.validateAll wallclock evs w).1 = Events.calls w
  ∧ Events.repo (Events.validateAll wallclock evs w).1 = Events.repo w.
Proof.
  revert w. induction evs as [|ev rest IH]; intros w; [done|].
  cbn [Events.validateAll]. unfold bind. rewrite validateInput_run.
  destruct (Spec.validate _ ev) as [err|].
  - unfold ret. by case_decide.
  - destruct (IH (if decide (Events.in_EventName ev = "" ∨ Events.in_Channel ev = ""
                            ∨ Events.in_UserID ev = "") then w else Events.tick w))
      as [-> ->].
    by case_decide.
Qed.

Lemma storeAll_counts evs w res :
  let run := Events.storeAll wallclock evs res w in
  exists log,
    Events.calls run.1 = Events.calls w ++ log
    ∧ (length log <= length evs)%nat
    ∧ Events.Created res <= Events.Created run.2.1
    ∧ Events.Duplicates res <= Events.Duplicates run.2.1
    ∧ (Events.Created run.2.1 - Events.Created res)
      + (Events.Duplicates run.2.1 - Events.Duplicates res) <= Z.of_nat (length log)
    ∧ (run.2.2 = None ->
       (Events.Created run.2.1 - Events.Created res)
       + (Events.Duplicates run.2.1 - Events.Duplicates res) = Z.of_nat (length evs)
       ∧ length log = length evs).
Proof.
  cbn zeta. revert w res. induction evs as [|ev rest IH]; intros w res.
  - exists []. cbn. rewrite app_nil_r. repeat split; lia.
  - cbn [Events.storeAll]. unfold bind.
    destruct (Execute_cases ev w) as (w1 & c & oerr & -> & Hcase).
    destruct Hcase as [(Hne & -> & Hcalls)|(-> & e & Hcalls)].
    + destruct oerr as [err|]; [|done]. unfold ret. cbn.
      destruct Hcalls as [->|[x ->]].
      * exists []. rewrite app_nil_r. cbn. repeat split; try done; lia.
      * exists [x]. cbn. repeat split; try done; lia.
    + set (res1 := if c then Events.mkBulkResult (Events.Created res + 1) (Events.Duplicates res)
                   else Events.mkBulkResult (Events.Created res) (Events.Duplicates res + 1)).
      destruct (IH w1 res1) as (log & Hlog & Hlen & Hc & Hd & Hle & Hok).
      assert (Hrun : (if c then Events.storeAll wallclock rest
                                  (Events.mkBulkResult (Events.Created res + 1)
                                     (Events.Duplicates res))
                      else Events.storeAll wallclock rest
                             (Events.mkBulkResult (Events.Created res)
                                (Events.Duplicates res + 1))) w1
                     = Events.storeAll wallclock rest res1 w1) by (by destruct c).
      assert (Hpair : match (c, @None error) with
                      | (_, Some err) => ret (res, Some err)
                      | (true, None) =>
                          Events.storeAll wallclock rest
                            (Events.mkBulkResult (Events.Created res + 1)
                               (Events.Duplicates res))
                      | (false, None) =>
                          Events.storeAll wallclock rest
                            (Events.mkBulkResult (Events.Created res)
                               (Events.Duplicates res + 1))
                      end w1 = Events.storeAll wallclock rest res1 w1) by (by destruct c).
      rewrite Hpair.
      exists ((e, (c, None)) :: log). rewrite Hlog, Hcalls, <- app_assoc.
      assert (Hres1 : Events.Created res1 + Events.Duplicates res1
                      = Events.Created res + Events.Duplicates res + 1
                      ∧ Events.Created res <= Events.Created res1
                      ∧ Events.Duplicates res <= Events.Duplicates res1).
      { subst res1. destruct c; cbn; lia. }
      cbn [length]. split; [done|].
      split; [lia|]. split; [lia|]. split; [lia|]. split; [lia|].
      intros Hnone. destruct (Hok Hnone). lia.
Qed.

Lemma BulkCreateEvents_counts evs w :
  let run := Events.BulkCreateEvents wallclock evs w in
  exists log,
    Events.calls run.1 = Events.calls w ++ log
    ∧ (length log <= length evs)%nat
    ∧ 0 <= Events.Created run.2.1
    ∧ 0 <= Events.Duplicates run.2.1
    ∧ Events.Created run.2.1 + Events.Duplicates run.2.1 <= Z.of_nat (length log)
    ∧ (run.2.2 = None ->
       Events.Created run.2.1 + Events.Duplicates run.2.1 = Z.of_nat (length evs)
       ∧ length log = length evs).
Proof.
  cbn zeta. unfold Events.BulkCreateEvents, bind.
  pose proof (validateAll_leaves_repository evs w) as [Hc _].
  destruct (Events.validateAll wallclock evs w) as [w1 [err|]]; cbn [fst] in Hc.
  - unfold ret. cbn. exists []. rewrite app_nil_r.
    split; [done|]. split; [cbn [length]; lia|]. repeat split; try done; cbn [length]; lia.
  - destruct (storeAll_counts evs w1 (Events.mkBulkResult 0 0))
      as (log & Hlog & Hlen & Hcr & Hdu & Hle & Hok).
    cbn [Events.Created Events.Duplicates] in *.
    exists log. rewrite Hlog, Hc.
    split; [done|]. split; [done|]. split; [lia|]. split; [lia|]. split; [lia|].
    intros Hnone. destruct (Hok Hnone). split; [lia | done].
Qed.

(** X3. Whatever the batch and whatever the repository does, [BulkCreateEvents]
    calls the repository at most once per item, its two counters never
    exceed, together, the number of calls made, and a nil error means that
    every item was handed over and counted: Created + Duplicates is the
    length of the batch. *)
Theorem BulkCreateEvents_counters_bounded evs w :
  let run := Events.BulkCreateEvents wallclock evs w in
  exists log,
    Events.calls run.1 = Events.calls w ++ log
    ∧ (length log <= length evs)%nat
    ∧ 0 <= Events.Created run.2.1
    ∧ 0 <= Events.Duplicates run.2.1
    ∧ Events.Created run.2.1 + Events.Duplicates run.2.1 <= Z.of_nat (length log)
    ∧ (run.2.2 = None ->
       Events.Created run.2.1 + Events.Duplicates run.2.1 = Z.of_nat (length evs)
       ∧ length log = length evs).
Proof.
  cbn zeta. unfold Events.BulkCreateEvents, bind.
  pose proof (validateAll_leaves_repository evs w) as [Hc _].
  destruct (Events.validateAll wallclock evs w) as [w1 [err|]]; cbn [fst] in Hc.
  - unfold ret. cbn. exists []. rewrite app_nil_r.
    split; [done|]. split; [cbn [length]; lia|]. repeat split; try done; cbn [length]; lia.
  - destruct (storeAll_counts evs w1 (Events.mkBulkResult 0 0))
      as (log & Hlog & Hlen & Hcr & Hdu & Hle & Hok).
    cbn [Events.Created Events.Duplicates] in *.
    exists log. rewrite Hlog, Hc.
    split; [done|]. split; [done|]. split; [lia|]. split; [lia|]. split; [lia|].
    intros Hnone. destruct (Hok Hnone). split; [lia | done].
Qed.

End IngestionMore.

Section LateRejection.

Context {any R : Type} `{!Events.EventRepositoryPort any R}.
Variable wallclock : nat -> Z.

Implicit Types (i ev : Events.StoreEventInput any) (w : Events.World any R)
  (evs : list (Events.StoreEventInput any)).

(** The second loop stops at the first item that its own validation
    rejects, after handing the items before it to the repository. *)
Lemma storeAll_stops_at_rejection evs w res k ev err :
  (forall e r, (Events.InsertEvent e r).2.2 = None) ->
  evs !! k = Some ev ->
  (forall j ev', (j < k)%nat -> evs !! j = Some ev' ->
     is_int64 (Events.in_Timestamp ev')
     ∧ Spec.validate (wallclock (Events.ticks w + j)%nat) ev' = None) ->
  Spec.validate (wallclock (Events.ticks w + k)%nat) ev = Some err ->
  exists w' res' log,
    Events.storeAll wallclock evs res w = (w', (res', Some err))
    ∧ Events.Created res' + Events.Duplicates res'
      = Events.Created res + Events.Duplicates res + Z.of_nat k
    ∧ Events.calls w' = Events.calls w ++ log
    ∧ log.*1 = Spec.eventOf <$> take k evs.
Proof.
  intros Hnf. revert k w res.
  induction evs as [|ev0 rest IH]; intros k w res Hk Hbefore Hbad; [done|].
  cbn [Events.storeAll]. unfold bind.
  destruct k as [|k].
  - injection Hk as ->. rewrite Nat.add_0_r in Hbad.
    destruct (Execute_invalid wallclock ev w err Hbad) as (w' & -> & _ & Hc).
    exists w', res, []. unfold ret. rewrite app_nil_r. repeat split; try done. lia.
  - destruct (Hbefore 0%nat ev0 ltac:(lia) eq_refl) as [Hts Hv].
    rewrite Nat.add_0_r in Hv.
    rewrite (Execute_valid wallclock ev0 w Hts Hv). cbn zeta.
    pose proof (Hnf (Spec.eventOf ev0) (Events.repo w)) as Hok.
    destruct (Events.InsertEvent (Spec.eventOf ev0) (Events.repo w)) as [r1 [c oerr]].
    cbn in Hok. subst oerr.
    set (w1 := Events.mkWorld _ _ _).
    set (res1 := if c then Events.mkBulkResult (Events.Created res + 1) (Events.Duplicates res)
                 else Events.mkBulkResult (Events.Created res) (Events.Duplicates res + 1)).
    destruct (IH k w1 res1) as (w' & res' & log & Hrun & Hsum & Hcalls & Hlog).
    + exact Hk.
    + intros j ev' Hj Hev'. subst w1. cbn [Events.ticks].
      replace (S (Events.ticks w) + j)%nat with (Events.ticks w + S j)%nat by lia.
      apply Hbefore; [lia | done].
    + subst w1. cbn [Events.ticks].
      by replace (S (Events.ticks w) + k)%nat with (Events.ticks w + S k)%nat by lia.
    + exists w', res', ((Spec.eventOf ev0, (c, None)) :: log).
      split; [subst res1; by destruct c|].
      split; [rewrite Hsum; subst res1; destruct c; cbn; lia|].
      split; [rewrite Hcalls; subst w1; cbn; by rewrite <- app_assoc|].
      cbn. by rewrite Hlog.
Qed.

(** X4. [Execute] validates again, against a later reading of the clock.  When
    every item passed the first loop, the repository does not fail, the
    first [k] items pass again and item [k] is by then ahead of the clock,
    [BulkCreateEvents] returns [ErrFutureTime] after handing the first [k]
    events to the repository, and its counters add up to [k]. *)
Theorem BulkCreateEvents_rejects_late_after_storing evs w k ev :
  (forall e r, (Events.InsertEvent e r).2.2 = None) ->
  (forall j ev', evs !! j = Some ev' ->
     is_int64 (Events.in_Timestamp ev')
     ∧ Spec.validate (wallclock (Events.ticks w + j)%nat) ev' = None) ->
  evs !! k = Some ev ->
  (forall j ev', (j < k)%nat -> evs !! j = Some ev' ->
     Events.in_Timestamp ev' <= wallclock (Events.ticks w + length evs + j)%nat) ->
  Events.in_Timestamp ev > wallclock (Events.ticks w + length evs + k)%nat ->
  exists w' res log,
    Events.BulkCreateEvents wallclock evs w = (w', (res, Some ErrFutureTime))
    ∧ Events.Created res + Events.Duplicates res = Z.of_nat k
    ∧ Events.calls w' = Events.calls w ++ log
    ∧ log.*1 = Spec.eventOf <$> take k evs.
Proof.
  intros Hnf Hgate Hk Hbefore Hlate. unfold Events.BulkCreateEvents, bind.
  rewrite validateAll_pass by (intros j ev' Hj; by apply Hgate).
  set (w1 := Events.mkWorld _ _ _).
  destruct (storeAll_stops_at_rejection evs w1 (Events.mkBulkResult 0 0) k ev ErrFutureTime Hnf Hk)
    as (w' & res & log & Hrun & Hsum & Hcalls & Hlog).
  - intros j ev' Hj Hev'. destruct (Hgate j ev' Hev') as [Hts Hv]. split; [done|].
    apply validate_None in Hv as (? & ? & ? & _).
    apply validate_None. subst w1. cbn [Events.ticks]. repeat split; try done.
    by apply Hbefore.
  - destruct (Hgate k ev Hk) as [_ Hv].
    apply validate_None in Hv as (Hn & Hc & Hu & _).
    subst w1. cbn [Events.ticks]. unfold Spec.validate.
    destruct (decide _) as [?|_]; [tauto|]. by rewrite decide_True.
  - exists w', res, log. cbn in Hsum. by repeat split.
Qed.

End LateRejection.

(* ===================================================================== *)
(** ** More on the two repositories and the metrics use case *)
(* ===================================================================== *)

Section EventsRepositoryMore.

Context {any D : Type} `{!EventsPostgres.DB D}.
Variable json_Marshal : option (gmap string any) -> string + error.

Implicit Types (e : Events.Event any) (d : D).

Local Abbreviation InsertEvent :=
  (EventsPostgres.EventRepository_InsertEvent json_Marshal).

(** X5. [InsertEvent] keeps the contract written on the port: it never answers
    created together with an error.  When the metadata does not marshal,
    it returns that error without executing any statement; otherwise the
    database is left as one execution of the insert statement leaves it. *)
Theorem InsertEvent_keeps_port_contract e d :
  ((InsertEvent e d).2.2 ≠ None -> (InsertEvent e d).2.1 = false)
  ∧ (forall err, json_Marshal (Events.Metadata e) = inr err ->
       InsertEvent e d = (d, (false, Some err)))
  ∧ (forall metadataJSON, json_Marshal (Events.Metadata e) = inl metadataJSON ->
       (InsertEvent e d).1
       = (EventsPostgres.ExecContext EventsPostgres.insertEventSQL
            (EventsPostgres.insertArgs e metadataJSON) d).1).
Proof.
  unfold EventsPostgres.EventRepository_InsertEvent.
  destruct (json_Marshal (Events.Metadata e)) as [js|merr].
  - destruct (EventsPostgres.ExecContext _ _ d) as [d' [res|err]] eqn:Hexec.
    + destruct (EventsPostgres.RowsAffected res) as [rows|err]; cbn.
      * repeat split; try done. intros js' [= <-]. by rewrite Hexec.
      * repeat split; try done. intros js' [= <-]. by rewrite Hexec.
    + cbn. repeat split; try done. intros js' [= <-]. by rewrite Hexec.
  - cbn. repeat split; try done. by intros err [= <-].
Qed.

End EventsRepositoryMore.

Section MetricsUseCaseMore.

Context {R : Type} `{!Metrics.MetricsReaderPort R}.

Implicit Types (i : Metrics.GetMetricsInput) (w : Metrics.World R).

Lemma Metrics_Execute_shape i w :
  let run := Metrics.Execute i w in
  (run.2.2 ≠ None -> run.2.1 = None)
  ∧ (Metrics.queries run.1 = Metrics.queries w
     ∨ exists f, Metrics.queries run.1 = Metrics.queries w ++ [f])
  ∧ (run.2 = (None, None) ->
     exists f, Metrics.queries run.1 = Metrics.queries w ++ [f]
       ∧ (Metrics.QueryMetrics f (Metrics.reader w)).2 = (None, None)).
Proof.
  cbn zeta. unfold Metrics.Execute.
  case_bool_decide; [unfold ret; cbn; repeat split; try done; by left|].
  destruct (_ || _); [unfold ret; cbn; repeat split; try done; by left|].
  cbn zeta.
  destruct (if bool_decide (Metrics.in_GroupBy i = "") then None else _) as [err|];
    [unfold ret; cbn; repeat split; try done; by left|].
  unfold bind, Metrics.reader_QueryMetrics, ret.
  destruct (Metrics.QueryMetrics _ (Metrics.reader w)) as [r' [res [err|]]] eqn:Hq; cbn.
  - repeat split; try done. right. by eexists.
  - repeat split; try done; [right; by eexists|].
    intros [= ->]. eexists. split; [done|]. by rewrite Hq.
Qed.

(** X6. [Execute] never returns a result together with an error, even when the
    reader does; it queries the reader at most once; and it returns
    neither result nor error only when the reader, queried, answered so. *)
Theorem Execute_result_or_error i w :
  let run := Metrics.Execute i w in
  (run.2.2 ≠ None -> run.2.1 = None)
  ∧ (Metrics.queries run.1 = Metrics.queries w
     ∨ exists f, Metrics.queries run.1 = Metrics.queries w ++ [f])
  ∧ (run.2 = (None, None) ->
     exists f, Metrics.queries run.1 = Metrics.queries w ++ [f]
       ∧ (Metrics.QueryMetrics f (Metrics.reader w)).2 = (None, None)).
Proof.
  cbn zeta. unfold Metrics.Execute.
  case_bool_decide; [unfold ret; cbn; repeat split; try done; by left|].
  destruct (_ || _); [unfold ret; cbn; repeat split; try done; by left|].
  cbn zeta.
  destruct (if bool_decide (Metrics.in_GroupBy i = "") then None else _) as [err|];
    [unfold ret; cbn; repeat split; try done; by left|].
  unfold bind, Metrics.reader_QueryMetrics, ret.
  destruct (Metrics.QueryMetrics _ (Metrics.reader w)) as [r' [res [err|]]] eqn:Hq; cbn.
  - repeat split; try done. right. by eexists.
  - repeat split; try done; [right; by eexists|].
    intros [= ->]. eexists. split; [done|]. by rewrite Hq.
Qed.

End MetricsUseCaseMore.

Section MetricsRepositoryMore.

Context {D : Type} `{!MetricsPostgres.DB D}.
Variable Format_RFC3339 : Time -> string.

Implicit Types (f : Metrics.MetricsFilter) (d : D) (res : Metrics.AggregatedMetrics).

Local Abbreviation QueryMetrics :=
  (MetricsPostgres.MetricsRepository_QueryMetrics Format_RFC3339).

(** [same_header r res]: [r] repeats the event name, bounds and grouping of
    [res]. *)
Local Abbreviation same_header r res :=
  (Metrics.EventName r = Metrics.EventName res ∧ Metrics.From r = Metrics.From res
   ∧ Metrics.To r = Metrics.To res ∧ Metrics.GroupBy r = Metrics.GroupBy res).

Local Abbreviation result_or_error out res :=
  ((exists r, out = (Some r, @None error) ∧ same_header r res)
   ∨ (exists err : error, out = (@None Metrics.AggregatedMetrics, Some err))).

Lemma queryNoGroup_shape where_ args res d :
  result_or_error (MetricsPostgres.queryNoGroup where_ args res d).2 res.
Proof.
  unfold MetricsPostgres.queryNoGroup.
  destruct (MetricsPostgres.QueryContext _ _ d) as [d' [rows|err]]; [|right; by eexists].
  cbn zeta.
  destruct (MetricsPostgres.pending rows) as [|[[|[|t|] [|[|u|] [|]]]|err] rest];
    try (right; by eexists);
    (destruct (MetricsPostgres.iterErr rows); [right; by eexists | left; by eexists]).
Qed.

Lemma queryGroupByChannel_shape where_ args res d :
  result_or_error (MetricsPostgres.queryGroupByChannel where_ args res d).2 res.
Proof.
  unfold MetricsPostgres.queryGroupByChannel.
  destruct (MetricsPostgres.QueryContext _ _ d) as [d' [rows|err]]; [|right; by eexists].
  destruct (MetricsPostgres.scanChannelRows _ _ _ _) as [[[groups t] u]|err];
    [|right; by eexists].
  destruct (MetricsPostgres.iterErr rows); [right; by eexists | left; by eexists].
Qed.

Lemma queryGroupByTime_shape where_ args res interval d :
  result_or_error
    (MetricsPostgres.queryGroupByTime Format_RFC3339 where_ args res interval d).2 res.
Proof.
  unfold MetricsPostgres.queryGroupByTime.
  destruct (MetricsPostgres.QueryContext _ _ d) as [d' [rows|err]]; [|right; by eexists].
  destruct (MetricsPostgres.scanTimeRows _ _ _ _ _) as [[[groups t] u]|err];
    [|right; by eexists].
  destruct (MetricsPostgres.iterErr rows); [right; by eexists | left; by eexists].
Qed.

Lemma QueryMetrics_shape f d :
  (exists res, (QueryMetrics f d).2 = (Some res, None)
     ∧ Metrics.EventName res = Metrics.f_EventName f
     ∧ Metrics.From res = Metrics.f_From f
     ∧ Metrics.To res = Metrics.f_To f
     ∧ Metrics.GroupBy res = Metrics.f_GroupBy f)
  ∨ (exists err, (QueryMetrics f d).2 = (None, Some err)).
Proof.
  unfold MetricsPostgres.MetricsRepository_QueryMetrics. cbn zeta.
  set (q := match Metrics.f_Channel f with Some _ => _ | None => _ end).
  destruct q as [where_ args].
  repeat case_bool_decide.
  - apply queryNoGroup_shape.
  - apply queryGroupByChannel_shape.
  - apply queryGroupByTime_shape.
  - right. by eexists.
Qed.

(** X7. On a database that answers each query with rows and a nil error or
    with nil rows and an error, which are the answers of [DB] and those of
    the [sqlDB] wrapper of *sql.DB, [QueryMetrics] returns a result with a
    nil error or a nil result with an error, never both and never neither;
    a result repeats the filter's event name, bounds and grouping.  (A
    database that answers nil rows with a nil error is not covered: there
    the source panics at [defer rows.Close()].) *)
Theorem QueryMetrics_result_xor_error f d :
  (exists res, (MetricsPostgres.MetricsRepository_QueryMetrics Format_RFC3339 f d).2 = (Some res, None)
     ∧ Metrics.EventName res = Metrics.f_EventName f
     ∧ Metrics.From res = Metrics.f_From f
     ∧ Metrics.To res = Metrics.f_To f
     ∧ Metrics.GroupBy res = Metrics.f_GroupBy f)
  ∨ (exists err, (MetricsPostgres.MetricsRepository_QueryMetrics Format_RFC3339 f d).2 = (None, Some err)).
Proof.
  unfold MetricsPostgres.MetricsRepository_QueryMetrics. cbn zeta.
  set (q := match Metrics.f_Channel f with Some _ => _ | None => _ end).
  destruct q as [where_ args].
  repeat case_bool_decide.
  - apply queryNoGroup_shape.
  - apply queryGroupByChannel_shape.
  - apply queryGroupByTime_shape.
  - right. by eexists.
Qed.

Lemma Sprintf_unsupported (g : string) :
  Sprintf "unsupported group_by: %s" [FString g] = "unsupported group_by: " +:+ g.
Proof. rewrite <- (append_nil_r g) at 2. reflexivity. Qed.

(** X8. A grouping other than "", "channel" and "time" is answered with the
    error "unsupported group_by: <value>", and the database is not
    queried. *)
Theorem QueryMetrics_unsupported_group_by f d :
  Metrics.f_GroupBy f ≠ "" -> Metrics.f_GroupBy f ≠ "channel" ->
  Metrics.f_GroupBy f ≠ "time" ->
  MetricsPostgres.MetricsRepository_QueryMetrics Format_RFC3339 f d
  = (d, (None, Some (errors_New ("unsupported group_by: " +:+ Metrics.f_GroupBy f)))).
Proof.
  intros H1 H2 H3. unfold MetricsPostgres.MetricsRepository_QueryMetrics. cbn zeta.
  set (q := match Metrics.f_Channel f with Some _ => _ | None => _ end).
  destruct q as [where_ args].
  rewrite !bool_decide_eq_false_2 by done. by rewrite Sprintf_unsupported.
Qed.

(** The answer of the database to the one query a grouping makes. *)
Local Ltac query_answer Hq :=
  match goal with
  | |- context [MetricsPostgres.QueryContext ?q ?a ?d] =>
      let Hans := fresh "Hans" in
      pose proof (Hq q a) as Hans;
      destruct (MetricsPostgres.QueryContext q a d) as [? ?];
      cbn [snd] in Hans; subst
  end.

(** X9. Without grouping, the result has no groups and its totals are those of
    the first row delivered, whatever follows it; with no row at all the
    totals are zero and there is no error. *)
Theorem QueryMetrics_no_group_summary f d (rows : MetricsPostgres.RowScanner) :
  Metrics.f_GroupBy f = "" ->
  (forall q a, (MetricsPostgres.QueryContext q a d).2 = inl rows) ->
  MetricsPostgres.iterErr rows = None ->
  (MetricsPostgres.pending rows = [] ->
   (QueryMetrics f d).2
   = (Some (Metrics.mkAggregatedMetrics (Metrics.f_EventName f) (Metrics.f_From f)
              (Metrics.f_To f) 0 0 "" []), None))
  ∧ (forall total unique rest,
       MetricsPostgres.pending rows
       = inl [MetricsPostgres.ColInt64 total; MetricsPostgres.ColInt64 unique] :: rest ->
       (QueryMetrics f d).2
       = (Some (Metrics.mkAggregatedMetrics (Metrics.f_EventName f) (Metrics.f_From f)
                  (Metrics.f_To f) total unique "" []), None)).
Proof.
  intros Hg Hq Herr. unfold MetricsPostgres.MetricsRepository_QueryMetrics. cbn zeta.
  set (q := match Metrics.f_Channel f with Some _ => _ | None => _ end).
  destruct q as [where_ args]. rewrite Hg.
  change (bool_decide ("" = "")) with true. cbn iota.
  unfold MetricsPostgres.queryNoGroup. query_answer Hq. cbn zeta.
  split.
  - intros ->. by rewrite Herr.
  - intros total unique rest ->. by rewrite Herr.
Qed.

Lemma scanChannelRows_fails gs err rest groups0 t0 u0 :
  MetricsPostgres.scanChannelRows ((Spec.channelRow <$> gs) ++ inr err :: rest)
    groups0 t0 u0 = inr err.
Proof.
  revert groups0 t0 u0. induction gs as [|[k c n] gs IH]; intros groups0 t0 u0; [done|].
  cbn. apply IH.
Qed.

(** X10. Under group_by "channel" an error gives no partial result: the error of
    the query, the error of the first row that does not scan (the rows
    before it are dropped), or the error the rows report at the end, comes
    back with a nil result. *)
Theorem QueryMetrics_by_channel_errors f d
    (answer : MetricsPostgres.RowScanner + error) :
  Metrics.f_GroupBy f = "channel" ->
  (forall q a, (MetricsPostgres.QueryContext q a d).2 = answer) ->
  (forall err, answer = inr err -> (QueryMetrics f d).2 = (None, Some err))
  ∧ (forall rows gs err rest,
       answer = inl rows ->
       MetricsPostgres.pending rows = (Spec.channelRow <$> gs) ++ inr err :: rest ->
       (QueryMetrics f d).2 = (None, Some err))
  ∧ (forall rows gs err,
       answer = inl rows ->
       MetricsPostgres.pending rows = Spec.channelRow <$> gs ->
       MetricsPostgres.iterErr rows = Some err ->
       (QueryMetrics f d).2 = (None, Some err)).
Proof.
  intros Hg Hq. unfold MetricsPostgres.MetricsRepository_QueryMetrics. cbn zeta.
  set (q := match Metrics.f_Channel f with Some _ => _ | None => _ end).
  destruct q as [where_ args]. rewrite Hg.
  change (bool_decide ("channel" = "")) with false.
  change (bool_decide ("channel" = "channel")) with true. cbn iota.
  unfold MetricsPostgres.queryGroupByChannel. query_answer Hq.
  split; [|split].
  - by intros err ->.
  - intros rows gs err rest -> ->. by rewrite scanChannelRows_fails.
  - intros rows gs err -> -> Herr.
    destruct (scanChannelRows_collects gs [] 0 0) as (t & u & ->). by rewrite Herr.
Qed.

(** X11. A channel query whose rows all scan, with no iteration error, returns
    one group per row, in the order the database delivered them, with the
    row's channel as key and its two counts. *)
Theorem QueryMetrics_by_channel_groups_in_row_order f d
    (rows : MetricsPostgres.RowScanner) (gs : list Metrics.MetricsGroup) :
  Metrics.f_GroupBy f = "channel" ->
  (forall q a, (MetricsPostgres.QueryContext q a d).2 = inl rows) ->
  MetricsPostgres.pending rows = Spec.channelRow <$> gs ->
  MetricsPostgres.iterErr rows = None ->
  exists res, (QueryMetrics f d).2 = (Some res, None) ∧ Metrics.Groups res = gs.
Proof.
  intros Hg Hq Hrows Herr. unfold MetricsPostgres.MetricsRepository_QueryMetrics.
  cbn zeta.
  set (q := match Metrics.f_Channel f with Some _ => _ | None => _ end).
  destruct q as [where_ args]. rewrite Hg.
  change (bool_decide ("channel" = "")) with false.
  change (bool_decide ("channel" = "channel")) with true. cbn iota.
  unfold MetricsPostgres.queryGroupByChannel. query_answer Hq. rewrite Hrows, Herr.
  destruct (scanChannelRows_collects gs [] 0 0) as (t & u & ->).
  eexists. split; [reflexivity | done].
Qed.

(** X12. A time query whose rows all scan, with no iteration error, returns one
    group per row, in the order delivered, keyed by the RFC 3339 text of
    the bucket in UTC and carrying the row's two counts. *)
Theorem QueryMetrics_by_time_groups_in_row_order f d
    (rows : MetricsPostgres.RowScanner) (bs : list (Time * Z * Z)) :
  Metrics.f_GroupBy f = "time" ->
  (forall q a, (MetricsPostgres.QueryContext q a d).2 = inl rows) ->
  MetricsPostgres.pending rows = Spec.bucketRow <$> bs ->
  MetricsPostgres.iterErr rows = None ->
  exists res,
    (QueryMetrics f d).2 = (Some res, None)
    ∧ Metrics.Groups res
      = (fun b : Time * Z * Z =>
           Metrics.mkMetricsGroup (Format_RFC3339 (UTC b.1.1)) b.1.2 b.2) <$> bs.
Proof.
  intros Hg Hq Hrows Herr. unfold MetricsPostgres.MetricsRepository_QueryMetrics.
  cbn zeta.
  set (q := match Metrics.f_Channel f with Some _ => _ | None => _ end).
  destruct q as [where_ args]. rewrite Hg.
  change (bool_decide ("time" = "")) with false.
  change (bool_decide ("time" = "channel")) with false.
  change (bool_decide ("time" = "time")) with true. cbn iota.
  unfold MetricsPostgres.queryGroupByTime. query_answer Hq. rewrite Hrows, Herr.
  destruct (scanTimeRows_collects Format_RFC3339 bs [] 0 0) as (t & u & ->).
  eexists. split; [reflexivity | done].
Qed.

End MetricsRepositoryMore.

Section MetricsRepositoryArguments.

Context {D : Type} `{!MetricsPostgres.DB D}.
Variable Format_RFC3339 : Time -> string.

Implicit Types (f : Metrics.MetricsFilter) (d : D).

Local Abbreviation QueryMetrics :=
  (MetricsPostgres.MetricsRepository_QueryMetrics Format_RFC3339).

Lemma Sprintf_channel_placeholder :
  Sprintf " AND channel = $%d" [FInt 4] = " AND channel = $4".
Proof. vm_compute. reflexivity. Qed.

Lemma Sprintf_time_query (interval where_ : string) :
  Sprintf "
SELECT
    date_trunc('%s', event_time) AS bucket,
    COUNT(*) AS total_count,
    COUNT(DISTINCT user_id) AS unique_users
FROM events
WHERE %s
GROUP BY bucket
ORDER BY bucket
" [FString interval; FString where_]
  = "
SELECT
    date_trunc('" +:+ interval +:+ "', event_time) AS bucket,
    COUNT(*) AS total_count,
    COUNT(DISTINCT user_id) AS unique_users
FROM events
WHERE " +:+ where_ +:+ "
GROUP BY bucket
ORDER BY bucket
".
Proof. reflexivity. Qed.

(** Each grouping leaves the database as its one query leaves it. *)
Lemma queryNoGroup_state where_ args res d :
  (MetricsPostgres.queryNoGroup where_ args res d).1
  = (MetricsPostgres.QueryContext ("
SELECT
    COUNT(*) AS total_count,
    COUNT(DISTINCT user_id) AS unique_users
FROM events
WHERE " +:+ where_) args d).1.
Proof.
  unfold MetricsPostgres.queryNoGroup.
  destruct (MetricsPostgres.QueryContext _ _ d) as [d' [rows|err]]; [|done].
  cbn zeta.
  destruct (MetricsPostgres.pending rows) as [|[[|[|t|] [|[|u|] [|]]]|err] rest];
    try done; by destruct (MetricsPostgres.iterErr rows).
Qed.

Lemma queryGroupByChannel_state where_ args res d :
  (MetricsPostgres.queryGroupByChannel where_ args res d).1
  = (MetricsPostgres.QueryContext ("
SELECT
    channel,
    COUNT(*) AS total_count,
    COUNT(DISTINCT user_id) AS unique_users
FROM events
WHERE " +:+ where_ +:+ "
GROUP BY channel
ORDER BY channel") args d).1.
Proof.
  unfold MetricsPostgres.queryGroupByChannel.
  destruct (MetricsPostgres.QueryContext _ _ d) as [d' [rows|err]]; [|done].
  destruct (MetricsPostgres.scanChannelRows _ _ _ _) as [[[groups t] u]|err]; [|done].
  by destruct (MetricsPostgres.iterErr rows).
Qed.

Lemma queryGroupByTime_state where_ args res interval d :
  (MetricsPostgres.queryGroupByTime Format_RFC3339 where_ args res interval d).1
  = (MetricsPostgres.QueryContext ("
SELECT
    date_trunc('" +:+ interval +:+ "', event_time) AS bucket,
    COUNT(*) AS total_count,
    COUNT(DISTINCT user_id) AS unique_users
FROM events
WHERE " +:+ where_ +:+ "
GROUP BY bucket
ORDER BY bucket
") args d).1.
Proof.
  unfold MetricsPostgres.queryGroupByTime. rewrite Sprintf_time_query.
  destruct (MetricsPostgres.QueryContext _ _ d) as [d' [rows|err]]; [|done].
  destruct (MetricsPostgres.scanTimeRows _ _ _ _ _) as [[[groups t] u]|err]; [|done].
  by destruct (MetricsPostgres.iterErr rows).
Qed.

(** X13. In each of the three groupings [QueryMetrics] leaves the database
    as exactly one query leaves it, and that query is the grouping's SELECT
    with the WHERE clause "event_name = $1 AND event_time BETWEEN $2 AND
    $3", followed by " AND channel = $4" when the filter has a channel and
    by nothing when it has none; the arguments are the event name, the UTC
    instants of From and To (whose Unix() is From and To for int64
    values), and the channel, fourth, exactly when the filter has one. *)
Theorem QueryMetrics_where_clause_matches_arguments f d :
  let where_ :=
    "event_name = $1 AND event_time BETWEEN $2 AND $3"
    +:+ match Metrics.f_Channel f with
        | Some _ => " AND channel = $4"
        | None => ""
        end in
  let args :=
    [ArgString (Metrics.f_EventName f); ArgTime (UTC (time_Unix (Metrics.f_From f)));
     ArgTime (UTC (time_Unix (Metrics.f_To f)))]
    ++ match Metrics.f_Channel f with Some ch => [ArgString ch] | None => [] end in
  (Metrics.f_GroupBy f = "" ->
   (QueryMetrics f d).1
   = (MetricsPostgres.QueryContext ("
SELECT
    COUNT(*) AS total_count,
    COUNT(DISTINCT user_id) AS unique_users
FROM events
WHERE " +:+ where_) args d).1)
  ∧ (Metrics.f_GroupBy f = "channel" ->
     (QueryMetrics f d).1
     = (MetricsPostgres.QueryContext ("
SELECT
    channel,
    COUNT(*) AS total_count,
    COUNT(DISTINCT user_id) AS unique_users
FROM events
WHERE " +:+ where_ +:+ "
GROUP BY channel
ORDER BY channel") args d).1)
  ∧ (Metrics.f_GroupBy f = "time" ->
     (QueryMetrics f d).1
     = (MetricsPostgres.QueryContext ("
SELECT
    date_trunc('" +:+ Metrics.f_Interval f +:+ "', event_time) AS bucket,
    COUNT(*) AS total_count,
    COUNT(DISTINCT user_id) AS unique_users
FROM events
WHERE " +:+ where_ +:+ "
GROUP BY bucket
ORDER BY bucket
") args d).1)
  ∧ (is_int64 (Metrics.f_From f) ->
     Unix (UTC (time_Unix (Metrics.f_From f))) = Metrics.f_From f)
  ∧ (is_int64 (Metrics.f_To f) ->
     Unix (UTC (time_Unix (Metrics.f_To f))) = Metrics.f_To f).
Proof.
  cbn zeta.
  assert (Hq : (match Metrics.f_Channel f with
                | Some ch =>
                    ("event_name = $1 AND event_time BETWEEN $2 AND $3"
                     +:+ Sprintf " AND channel = $%d" [FInt 4],
                     [ArgString (Metrics.f_EventName f);
                      ArgTime (UTC (time_Unix (Metrics.f_From f)));
                      ArgTime (UTC (time_Unix (Metrics.f_To f)))] ++ [ArgString ch])
                | None =>
                    ("event_name = $1 AND event_time BETWEEN $2 AND $3",
                     [ArgString (Metrics.f_EventName f);
                      ArgTime (UTC (time_Unix (Metrics.f_From f)));
                      ArgTime (UTC (time_Unix (Metrics.f_To f)))])
                end)
               = ("event_name = $1 AND event_time BETWEEN $2 AND $3"
                  +:+ match Metrics.f_Channel f with
                      | Some _ => " AND channel = $4"
                      | None => ""
                      end,
                  [ArgString (Metrics.f_EventName f);
                   ArgTime (UTC (time_Unix (Metrics.f_From f)));
                   ArgTime (UTC (time_Unix (Metrics.f_To f)))]
                  ++ match Metrics.f_Channel f with
                     | Some ch => [ArgString ch]
                     | None => []
                     end)).
  { destruct (Metrics.f_Channel f).
    - by rewrite Sprintf_channel_placeholder.
    - by rewrite append_nil_r, app_nil_r. }
  unfold MetricsPostgres.MetricsRepository_QueryMetrics. cbn zeta. rewrite Hq. clear Hq.
  split; [|split; [|split; [|split]]]; try apply Unix_time_Unix.
  - intros ->. change (bool_decide ("" = "")) with true. cbn iota.
    apply queryNoGroup_state.
  - intros ->. change (bool_decide ("channel" = "")) with false.
    change (bool_decide ("channel" = "channel")) with true. cbn iota.
    apply queryGroupByChannel_state.
  - intros ->. change (bool_decide ("time" = "")) with false.
    change (bool_decide ("time" = "channel")) with false.
    change (bool_decide ("time" = "time")) with true. cbn iota.
    apply queryGroupByTime_state.
Qed.

End MetricsRepositoryArguments.

(* ===================================================================== *)
(** ** The HTTP handlers *)
(* ===================================================================== *)

Section EventsHandler.

Context {any U : Type} `{!EventsHTTP.StoreEventUseCase any U}.

Implicit Types (req : EventsHTTP.CreateEventRequest any) (u : U).

Lemma errorResponse_status err :
  (EventsHTTP.StatusCode (EventsHTTP.errorResponse err) = 400
   <-> err = ErrInvalidEvent ∨ err = ErrFutureTime)
  ∧ (EventsHTTP.StatusCode (EventsHTTP.errorResponse err) = 500
     <-> err ≠ ErrInvalidEvent ∧ err ≠ ErrFutureTime)
  ∧ (err = ErrInvalidEvent ∨ err = ErrFutureTime ->
     EventsHTTP.body (EventsHTTP.errorResponse err)
     = EventsHTTP.ErrorResponse "invalid_event" (Http.Error err))
  ∧ (err ≠ ErrInvalidEvent ∧ err ≠ ErrFutureTime ->
     EventsHTTP.body (EventsHTTP.errorResponse err)
     = EventsHTTP.ErrorResponse "internal_server_error" "").
Proof.
  unfold EventsHTTP.errorResponse, Http.errors_Is.
  destruct (decide (err = ErrInvalidEvent)) as [->|Hn1].
  { cbn. repeat split; try done; try tauto; intros; tauto. }
  destruct (decide (err = ErrFutureTime)) as [->|Hn2].
  { cbn. repeat split; try done; try tauto; intros; tauto. }
  rewrite !bool_decide_eq_false_2 by done. cbn.
  repeat split; try done; try tauto; intros; tauto.
Qed.

(** X14. The status of [CreateEvent] tells the outcome of the use case apart:
    201 exactly for created, 200 exactly for duplicate, 400 exactly for the
    two validation errors (with the error's text as message), 500 exactly
    for any other error, whose text is not sent.  A body that does not
    parse gets 400 invalid_json and the use case is not called. *)
Theorem CreateEvent_status_tells_outcome req u :
  let outcome := (EventsHTTP.uc_Execute (EventsHTTP.inputOf req) u).2 in
  let resp := (EventsHTTP.CreateEvent (inl req) u).2 in
  (EventsHTTP.CreateEvent (inl req) u).1 = (EventsHTTP.uc_Execute (EventsHTTP.inputOf req) u).1
  ∧ (EventsHTTP.StatusCode resp = 201 <-> outcome = (true, None))
  ∧ (EventsHTTP.StatusCode resp = 200 <-> outcome = (false, None))
  ∧ (EventsHTTP.StatusCode resp = 400
     <-> outcome.2 = Some ErrInvalidEvent ∨ outcome.2 = Some ErrFutureTime)
  ∧ (EventsHTTP.StatusCode resp = 500
     <-> exists err, outcome.2 = Some err ∧ err ≠ ErrInvalidEvent ∧ err ≠ ErrFutureTime)
  ∧ (forall err, outcome.2 = Some err ->
       EventsHTTP.body resp
       = if bool_decide (err = ErrInvalidEvent ∨ err = ErrFutureTime)
         then EventsHTTP.ErrorResponse "invalid_event" (Http.Error err)
         else EventsHTTP.ErrorResponse "internal_server_error" "")
  ∧ (forall perr,
       EventsHTTP.CreateEvent (inr perr) u
       = (u, EventsHTTP.mkResponse 400 (EventsHTTP.MapError "invalid_json"))).
Proof.
  cbn zeta. unfold EventsHTTP.CreateEvent, bind.
  destruct (EventsHTTP.uc_Execute (EventsHTTP.inputOf req) u) as [u1 [c [err|]]].
  - unfold ret. cbn [fst snd].
    destruct (errorResponse_status err) as (H400 & H500 & Hb400 & Hb500).
    split; [done|].
    split; [split; [|done]|].
    { intros Hs. destruct (decide (err = ErrInvalidEvent ∨ err = ErrFutureTime)) as [Hv|Hv].
      - apply H400 in Hv. congruence.
      - assert (EventsHTTP.StatusCode (EventsHTTP.errorResponse err) = 500)
          by (apply H500; tauto). congruence. }
    split; [split; [|done]|].
    { intros Hs. destruct (decide (err = ErrInvalidEvent ∨ err = ErrFutureTime)) as [Hv|Hv].
      - apply H400 in Hv. congruence.
      - assert (EventsHTTP.StatusCode (EventsHTTP.errorResponse err) = 500)
          by (apply H500; tauto). congruence. }
    split.
    { rewrite H400. split; [intros [->| ->]; tauto | intros [[= ->]|[= ->]]; tauto]. }
    split.
    { rewrite H500. split; [intros [? ?]; by exists err | by intros (e & [= ->] & ? & ?)]. }
    split; [|done].
    intros e [= <-]. case_bool_decide; [by apply Hb400 | apply Hb500; tauto].
  - unfold ret. destruct c; cbn; repeat split; try done; try (by intros [? [? ?]]);
      try (by intros [?|?]).
Qed.

End EventsHandler.

Section BulkLog.

Context {any R : Type} `{!Events.EventRepositoryPort any R}.
Variable wallclock : nat -> Z.

Implicit Types (i ev : Events.StoreEventInput any) (w : Events.World any R)
  (evs : list (Events.StoreEventInput any)).

(** An [Execute] that returns no error handed the event of its input to the
    repository and returns the flag it was answered. *)
Lemma Execute_ok_event i w :
  is_int64 (Events.in_Timestamp i) ->
  (Events.Execute wallclock i w).2.2 = None ->
  Events.calls (Events.Execute wallclock i w).1
  = Events.calls w ++ [(Spec.eventOf i, ((Events.Execute wallclock i w).2.1, None))].
Proof.
  intros Hts Hok.
  destruct (Spec.validate (wallclock (Events.ticks w)) i) as [err|] eqn:Hv.
  - destruct (Execute_invalid wallclock i w err Hv) as (w' & Hrun & _).
    rewrite Hrun in Hok. discriminate Hok.
  - rewrite (Execute_valid wallclock i w Hts Hv) in *. cbn zeta in *.
    destruct (Events.InsertEvent (Spec.eventOf i) (Events.repo w)) as [r1 [c [err|]]];
      [discriminate Hok | done].
Qed.

Lemma storeAll_ok_log evs w res :
  Forall (fun ev => is_int64 (Events.in_Timestamp ev)) evs ->
  (Events.storeAll wallclock evs res w).2.2 = None ->
  exists log,
    Events.calls (Events.storeAll wallclock evs res w).1 = Events.calls w ++ log
    ∧ log.*1 = Spec.eventOf <$> evs
    ∧ Forall (fun c => c.2.2 = None) log
    ∧ Events.Created (Events.storeAll wallclock evs res w).2.1
      = Events.Created res + Z.of_nat (length (filter (fun c => c.2.1 = true) log))
    ∧ Events.Duplicates (Events.storeAll wallclock evs res w).2.1
      = Events.Duplicates res + Z.of_nat (length (filter (fun c => c.2.1 = false) log)).
Proof.
  revert w res. induction evs as [|ev rest IH]; intros w res Hts Hok.
  - exists []. cbn. rewrite app_nil_r, !Z.add_0_r. by repeat split.
  - apply Forall_cons in Hts as [Hts Hrest].
    cbn [Events.storeAll] in *. unfold bind in *.
    pose proof (Execute_ok_event ev w Hts) as Hev.
    destruct (Events.Execute wallclock ev w) as [w1 [c [err|]]];
      [destruct c; discriminate Hok|].
    cbn [fst snd] in Hev. specialize (Hev eq_refl).
    set (res1 := if c then Events.mkBulkResult (Events.Created res + 1) (Events.Duplicates res)
                 else Events.mkBulkResult (Events.Created res) (Events.Duplicates res + 1)).
    assert (Hpair : match (c, @None error) with
                    | (_, Some err) => ret (res, Some err)
                    | (true, None) =>
                        Events.storeAll wallclock rest
                          (Events.mkBulkResult (Events.Created res + 1)
                             (Events.Duplicates res))
                    | (false, None) =>
                        Events.storeAll wallclock rest
                          (Events.mkBulkResult (Events.Created res)
                             (Events.Duplicates res + 1))
                    end w1 = Events.storeAll wallclock rest res1 w1) by (by destruct c).
    rewrite Hpair in *.
    destruct (IH w1 res1 Hrest Hok) as (log & Hlog & Hfst & Hall & Hcr & Hdu).
    exists ((Spec.eventOf ev, (c, None)) :: log).
    split; [rewrite Hlog, Hev; by rewrite <- app_assoc|].
    split; [cbn; by rewrite Hfst|].
    split; [by constructor|].
    split.
    + rewrite Hcr. subst res1.
      destruct c; [rewrite filter_cons_True by done | rewrite filter_cons_False by done];
        cbn [Events.Created length]; lia.
    + rewrite Hdu. subst res1.
      destruct c; [rewrite filter_cons_False by done | rewrite filter_cons_True by done];
        cbn [Events.Duplicates length]; lia.
Qed.

(** A [BulkCreateEvents] that returns no error handed the event of every
    item to the repository, in batch order, and counted the answers. *)
Lemma BulkCreateEvents_ok_log evs w :
  Forall (fun ev => is_int64 (Events.in_Timestamp ev)) evs ->
  (Events.BulkCreateEvents wallclock evs w).2.2 = None ->
  exists log,
    Events.calls (Events.BulkCreateEvents wallclock evs w).1 = Events.calls w ++ log
    ∧ log.*1 = Spec.eventOf <$> evs
    ∧ Forall (fun c => c.2.2 = None) log
    ∧ Events.Created (Events.BulkCreateEvents wallclock evs w).2.1
      = Z.of_nat (length (filter (fun c => c.2.1 = true) log))
    ∧ Events.Duplicates (Events.BulkCreateEvents wallclock evs w).2.1
      = Z.of_nat (length (filter (fun c => c.2.1 = false) log)).
Proof.
  intros Hts. unfold Events.BulkCreateEvents, bind.
  pose proof (validateAll_leaves_repository wallclock evs w) as [Hc _].
  destruct (Events.validateAll wallclock evs w) as [w1 [err|]]; cbn [fst] in Hc;
    [intros Hok; discriminate Hok|].
  intros Hok.
  destruct (storeAll_ok_log evs w1 (Events.mkBulkResult 0 0) Hts Hok)
    as (log & Hlog & Hfst & Hall & Hcr & Hdu).
  exists log. rewrite Hlog, Hc. by repeat split.
Qed.

End BulkLog.

Section EventsHandlerWired.

Context {any R : Type} `{!Events.EventRepositoryPort any R}.
Variable wallclock : nat -> Z.

Implicit Types (req : EventsHTTP.CreateEventRequest any) (w : Events.World any R).

Local Abbreviation CreateEvent :=
  (EventsHTTP.CreateEvent (StoreEventUseCase0 := EventsHTTP.useCase wallclock)).
Local Abbreviation BulkCreateEvents :=
  (EventsHTTP.BulkCreateEvents (StoreEventUseCase0 := EventsHTTP.useCase wallclock)).

(** X15. Handler and use case together: a request with an empty event_name,
    channel or user_id, or with a timestamp ahead of the clock, is answered
    400 invalid_event with the text of the validation error, and the
    repository is not called. *)
Theorem CreateEvent_rejects_invalid_request req w :
  let now := wallclock (Events.ticks w) in
  let resp := (CreateEvent (inl req) w).2 in
  let w' := (CreateEvent (inl req) w).1 in
  (EventsHTTP.req_EventName req = "" ∨ EventsHTTP.req_Channel req = ""
   ∨ EventsHTTP.req_UserID req = "" ->
   resp = EventsHTTP.mkResponse 400 (EventsHTTP.ErrorResponse "invalid_event" "invalid event")
   ∧ Events.calls w' = Events.calls w ∧ Events.repo w' = Events.repo w)
  ∧ (EventsHTTP.req_EventName req ≠ "" -> EventsHTTP.req_Channel req ≠ "" ->
     EventsHTTP.req_UserID req ≠ "" -> EventsHTTP.req_Timestamp req > now ->
     resp = EventsHTTP.mkResponse 400
              (EventsHTTP.ErrorResponse "invalid_event" "timestamp cannot be in the future")
     ∧ Events.calls w' = Events.calls w ∧ Events.repo w' = Events.repo w).
Proof.
  cbn zeta. unfold EventsHTTP.CreateEvent, bind.
  cbn [EventsHTTP.uc_Execute EventsHTTP.useCase].
  split.
  - intros Hmiss.
    assert (Hv : Spec.validate (wallclock (Events.ticks w)) (EventsHTTP.inputOf req)
                 = Some ErrInvalidEvent).
    { unfold Spec.validate, EventsHTTP.inputOf. cbn. by rewrite decide_True. }
    destruct (Execute_invalid wallclock _ w _ Hv) as (w' & -> & Hr & Hc). done.
  - intros Hn Hc Hu Hlate.
    assert (Hv : Spec.validate (wallclock (Events.ticks w)) (EventsHTTP.inputOf req)
                 = Some ErrFutureTime).
    { unfold Spec.validate, EventsHTTP.inputOf. cbn.
      rewrite decide_False by tauto. by rewrite decide_True. }
    destruct (Execute_invalid wallclock _ w _ Hv) as (w' & -> & Hr & Hcalls). done.
Qed.

(** X16. Handler and use case together: a 201 answer to a bulk request
    means that the event of every item of the request was handed to the
    repository, in the order of the request, each call answered without
    error; the created counter of the body is the number of calls answered
    created and the duplicates counter the number answered duplicate, so
    that the two add up to the number of events in the request.  An empty
    or missing list is answered 400 events_list_required, and a body that
    does not parse 400 invalid_json, without any call. *)
Theorem BulkCreateEvents_201_counts_every_event
    (breq : EventsHTTP.BulkCreateEventsRequest any) w :
  let resp := (BulkCreateEvents (inl breq) w).2 in
  let w' := (BulkCreateEvents (inl breq) w).1 in
  (Forall (fun item => is_int64 (EventsHTTP.req_Timestamp item))
     (EventsHTTP.req_Events breq) ->
   EventsHTTP.StatusCode resp = 201 ->
   exists log,
     Events.calls w' = Events.calls w ++ log
     ∧ log.*1 = (fun item => Spec.eventOf (EventsHTTP.inputOf item))
                <$> EventsHTTP.req_Events breq
     ∧ Forall (fun c => c.2.2 = None) log
     ∧ EventsHTTP.body resp
       = EventsHTTP.MapCounts
           (Z.of_nat (length (filter (fun c => c.2.1 = true) log)))
           (Z.of_nat (length (filter (fun c => c.2.1 = false) log)))
     ∧ Z.of_nat (length (filter (fun c => c.2.1 = true) log))
       + Z.of_nat (length (filter (fun c => c.2.1 = false) log))
       = Z.of_nat (length (EventsHTTP.req_Events breq)))
  ∧ (EventsHTTP.req_Events breq = [] ->
     BulkCreateEvents (inl breq) w
     = (w, EventsHTTP.mkResponse 400 (EventsHTTP.MapError "events_list_required")))
  ∧ (forall perr,
       BulkCreateEvents (inr perr) w
       = (w, EventsHTTP.mkResponse 400 (EventsHTTP.MapError "invalid_json"))).
Proof.
  cbn zeta. unfold EventsHTTP.BulkCreateEvents.
  split; [|split; [by intros -> | done]].
  intros Hts.
  case_bool_decide as Hlen.
  { unfold ret. cbn. intros [=]. }
  unfold bind. cbn [EventsHTTP.uc_BulkCreateEvents EventsHTTP.useCase].
  assert (Hts' : Forall (fun ev => is_int64 (Events.in_Timestamp ev))
                   (map EventsHTTP.inputOf (EventsHTTP.req_Events breq))).
  { apply Forall_fmap. exact Hts. }
  pose proof (BulkCreateEvents_ok_log wallclock _ w Hts') as Hlog.
  pose proof (BulkCreateEvents_counts wallclock
                (map EventsHTTP.inputOf (EventsHTTP.req_Events breq)) w) as Hcounts.
  cbn zeta in Hcounts.
  destruct (Events.BulkCreateEvents wallclock _ w) as [w1 [res [err|]]].
  - unfold ret. cbn [fst snd]. intros Hs.
    destruct (errorResponse_status err) as (H400 & H500 & _).
    destruct (decide (err = ErrInvalidEvent ∨ err = ErrFutureTime)) as [Hv|Hv].
    + apply H400 in Hv. congruence.
    + assert (EventsHTTP.StatusCode (EventsHTTP.errorResponse err) = 500)
        by (apply H500; tauto). congruence.
  - unfold ret. cbn [fst snd] in *. intros _.
    destruct (Hlog eq_refl) as (log & Hcalls & Hfst & Hall & Hcr & Hdu).
    destruct Hcounts as (log' & _ & _ & _ & _ & _ & Hok).
    destruct (Hok eq_refl) as [Hsum _]. rewrite length_map in Hsum.
    exists log. split; [exact Hcalls|].
    split; [rewrite Hfst; by rewrite <- list_fmap_compose|].
    split; [exact Hall|].
    split; [by rewrite Hcr, Hdu|].
    by rewrite <- Hcr, <- Hdu.
Qed.

End EventsHandlerWired.

Section MetricsHandler.

Context {U : Type} `{!MetricsHTTP.GetMetricsUseCase U}.
Variable ParseInt : string -> Z + error.

Implicit Types (Query : string -> string) (u : U).

Local Abbreviation GetMetrics := (MetricsHTTP.GetMetrics ParseInt).
Local Abbreviation badRequest msg :=
  (MetricsHTTP.Responds (MetricsHTTP.mkResponse 400 (MetricsHTTP.MapError msg))).

Lemma validation_error_switch err :
  Http.errors_Is err ErrInvalidMetricsQuery || Http.errors_Is err ErrInvalidTimeRange
  || Http.errors_Is err ErrInvalidGroupBy || Http.errors_Is err ErrInvalidInterval
  = bool_decide (err = ErrInvalidMetricsQuery ∨ err = ErrInvalidTimeRange
                 ∨ err = ErrInvalidGroupBy ∨ err = ErrInvalidInterval).
Proof.
  unfold Http.errors_Is. repeat case_bool_decide; cbn; try done; exfalso; tauto.
Qed.

(** X17. [GetMetrics] checks its parameters in a fixed order and answers 400
    at the first that fails, without calling the use case: event_name
    missing; then from or to missing; then from not an integer; then to not
    an integer. *)
Theorem GetMetrics_parameter_checks Query u :
  (Query "event_name" = "" ->
   GetMetrics Query u = (u, badRequest "event_name is required"))
  ∧ (Query "event_name" ≠ "" -> Query "from" = "" ∨ Query "to" = "" ->
     GetMetrics Query u = (u, badRequest "from and to are required"))
  ∧ (Query "event_name" ≠ "" -> Query "from" ≠ "" -> Query "to" ≠ "" ->
     forall perr, ParseInt (Query "from") = inr perr ->
     GetMetrics Query u = (u, badRequest "invalid 'from' parameter"))
  ∧ (Query "event_name" ≠ "" -> Query "from" ≠ "" -> Query "to" ≠ "" ->
     forall from perr, ParseInt (Query "from") = inl from ->
     ParseInt (Query "to") = inr perr ->
     GetMetrics Query u = (u, badRequest "invalid 'to' parameter")).
Proof.
  unfold MetricsHTTP.GetMetrics. repeat split.
  - intros He. by rewrite (bool_decide_eq_true_2 _ He).
  - intros He Hmiss. rewrite (bool_decide_eq_false_2 _ He).
    destruct Hmiss as [Hm|Hm]; rewrite (bool_decide_eq_true_2 _ Hm);
      by rewrite ?orb_true_r.
  - intros He Hf Ht perr Hp. rewrite !bool_decide_eq_false_2 by done. cbn [orb].
    by rewrite Hp.
  - intros He Hf Ht from perr Hpf Hpt. rewrite !bool_decide_eq_false_2 by done.
    cbn [orb]. by rewrite Hpf, Hpt.
Qed.

(** X18. With parameters that pass the checks, the use case is called once, with
    the channel filter absent exactly when the channel parameter is empty.
    A result is answered 200 with the same header and totals and one group
    per group of the result, in the same order, with the same key and
    counts; the four validation errors are answered 400 with their text,
    any other error 500 without its text; a nil result with a nil error
    makes the handler panic. *)
Theorem GetMetrics_answers_from_use_case Query u from to :
  Query "event_name" ≠ "" -> Query "from" ≠ "" -> Query "to" ≠ "" ->
  ParseInt (Query "from") = inl from -> ParseInt (Query "to") = inl to ->
  exists input,
    Metrics.in_EventName input = Query "event_name"
    ∧ Metrics.in_From input = from ∧ Metrics.in_To input = to
    ∧ Metrics.in_GroupBy input = Query "group_by"
    ∧ Metrics.in_Interval input = Query "interval"
    ∧ (Metrics.in_Channel input = None <-> Query "channel" = "")
    ∧ (Query "channel" ≠ "" -> Metrics.in_Channel input = Some (Query "channel"))
    ∧ (GetMetrics Query u).1 = (MetricsHTTP.uc_Execute input u).1
    ∧ let outcome := (MetricsHTTP.uc_Execute input u).2 in
      let answer := (GetMetrics Query u).2 in
      (forall res, outcome = (Some res, None) ->
         answer
         = MetricsHTTP.Responds
             (MetricsHTTP.mkResponse 200
                (MetricsHTTP.Metrics
                   (MetricsHTTP.mkMetricsResponse (Metrics.EventName res)
                      (Metrics.From res) (Metrics.To res) (Metrics.TotalCount res)
                      (Metrics.UniqueUsers res) (Metrics.GroupBy res)
                      ((fun g => MetricsHTTP.mkMetricsGroupResponse (Metrics.Key g)
                                   (Metrics.Group_TotalCount g)
                                   (Metrics.Group_UniqueUsers g))
                       <$> Metrics.Groups res)))))
      ∧ (forall err, outcome.2 = Some err ->
           answer
           = MetricsHTTP.Responds
               (if bool_decide (err = ErrInvalidMetricsQuery ∨ err = ErrInvalidTimeRange
                                ∨ err = ErrInvalidGroupBy ∨ err = ErrInvalidInterval)
                then MetricsHTTP.mkResponse 400
                       (MetricsHTTP.ErrorResponse "invalid_event" (Http.Error err))
                else MetricsHTTP.mkResponse 500
                       (MetricsHTTP.ErrorResponse "internal_server_error" "")))
      ∧ (outcome = (None, None) <-> answer = MetricsHTTP.PanicNilResult).
Proof.
  intros He Hf Ht Hpf Hpt. unfold MetricsHTTP.GetMetrics.
  rewrite !bool_decide_eq_false_2 by done. cbn [orb]. rewrite Hpf, Hpt. cbn zeta.
  exists (Metrics.mkGetMetricsInput (Query "event_name") from to
            (if bool_decide (Query "channel" ≠ "") then Some (Query "channel") else None)
            (Query "group_by") (Query "interval")).
  cbn [Metrics.in_EventName Metrics.in_From Metrics.in_To Metrics.in_GroupBy
       Metrics.in_Interval Metrics.in_Channel].
  do 5 (split; [reflexivity|]).
  split; [case_bool_decide; split; try done; intros; tauto|].
  split; [intros Hc; by rewrite bool_decide_eq_true_2|].
  unfold bind.
  destruct (MetricsHTTP.uc_Execute _ u) as [u1 [[res|] [err|]]]; unfold ret; cbn [fst snd];
    rewrite ?validation_error_switch.
  - destruct (bool_decide _) eqn:Hsw; cbn [fst snd]; repeat split; try done;
      intros e [= <-]; by rewrite Hsw.
  - repeat split; try done. by intros r [= <-].
  - destruct (bool_decide _) eqn:Hsw; cbn [fst snd]; repeat split; try done;
      intros e [= <-]; by rewrite Hsw.
  - by repeat split.
Qed.

End MetricsHandler.

Section MetricsHandlerWired.

Context {D : Type} `{!MetricsPostgres.DB D}.
Variable Format_RFC3339 : Time -> string.
Variable ParseInt : string -> Z + error.

(** X19. Handler, use case and postgres repository together, as main wires
    them: whatever the query string and whatever the database does, the
    handler answers; it never reads through a nil result. *)
Theorem GetMetrics_never_panics (Query : string -> string) (w : Metrics.World D) :
  (MetricsHTTP.GetMetrics
     (GetMetricsUseCase0 :=
        MetricsHTTP.useCase
          (MetricsReaderPort0 := MetricsPostgres.MetricsRepository Format_RFC3339))
     ParseInt Query w).2 ≠ MetricsHTTP.PanicNilResult.
Proof.
  unfold MetricsHTTP.GetMetrics.
  case_bool_decide; [done|].
  destruct (_ || _); [done|].
  destruct (ParseInt (Query "from")) as [from|]; [|done].
  destruct (ParseInt (Query "to")) as [to|]; [|done].
  cbn zeta. unfold bind, MetricsHTTP.uc_Execute, MetricsHTTP.useCase.
  set (input := Metrics.mkGetMetricsInput _ _ _ _ _ _).
  pose proof (Metrics_Execute_shape
                (H := MetricsPostgres.MetricsRepository Format_RFC3339)
                input w) as (_ & _ & Hnil).
  cbn zeta in Hnil.
  destruct (Metrics.Execute input w) as [w1 [[res|] [err|]]]; unfold ret; cbn [snd].
  - by repeat destruct (Http.errors_Is _ _).
  - done.
  - by repeat destruct (Http.errors_Is _ _).
  - destruct (Hnil eq_refl) as (f & _ & Hq).
    unfold Metrics.QueryMetrics, MetricsPostgres.MetricsRepository in Hq.
    destruct (QueryMetrics_shape Format_RFC3339 f (Metrics.reader w))
      as [(r & Hr & _)|(e & He)]; congruence.
Qed.

End MetricsHandlerWired.

(* ===================================================================== *)
(** ** The further theorems at the inputs of the tests *)
(* ===================================================================== *)

Lemma Execute_invalid_input_stops_before_repository_witness :
  exists w',
    Events.Execute clock (input "product_view" "web" "" "" (noon - 60)) bulkWorld
    = (w', (false, Some ErrInvalidEvent))
    ∧ (ErrInvalidEvent = ErrInvalidEvent ∨ ErrInvalidEvent = ErrFutureTime)
    ∧ Events.repo w' = Events.repo bulkWorld
    ∧ Events.calls w' = Events.calls bulkWorld.
Proof.
  exact (Execute_invalid_input_stops_before_repository clock
           (input "product_view" "web" "" "" (noon - 60)) bulkWorld ErrInvalidEvent eq_refl).
Defined.

Lemma Execute_outcome_shape_witness :
  let run := Events.Execute clock (input "product_view" "web" "" "user_1" (noon - 60))
               bulkWorld in
  exists e, Events.calls run.1 = Events.calls bulkWorld ++ [(e, (true, None))].
Proof.
  exact (proj1 (proj2 (Execute_outcome_shape clock
                         (input "product_view" "web" "" "user_1" (noon - 60)) bulkWorld))
           eq_refl).
Defined.

Lemma BulkCreateEvents_counters_bounded_witness :
  let run := Events.BulkCreateEvents clock batch bulkWorld in
  exists log,
    Events.calls run.1 = Events.calls bulkWorld ++ log
    ∧ Events.Created run.2.1 + Events.Duplicates run.2.1 = 3
    ∧ length log = 3%nat.
Proof.
  cbn zeta.
  destruct (BulkCreateEvents_counters_bounded clock batch bulkWorld)
    as (log & Hlog & _ & _ & _ & _ & Hok).
  destruct (Hok eq_refl) as [Hsum Hlen].
  exists log. split; [exact Hlog|]. split; [exact Hsum | exact Hlen].
Defined.

(** The clock is set back between the two loops: the first event is handed
    over, the second is rejected as being in the future. *)
Lemma BulkCreateEvents_rejects_late_after_storing_witness :
  exists w' res log,
    Events.BulkCreateEvents (EventRepositoryPort0 := createdPort) steppingBack pair unitWorld
    = (w', (res, Some ErrFutureTime))
    ∧ Events.Created res + Events.Duplicates res = 1
    ∧ Events.calls w' = Events.calls unitWorld ++ log
    ∧ log.*1 = Spec.eventOf <$> take 1 pair.
Proof.
  refine (BulkCreateEvents_rejects_late_after_storing (H := createdPort) steppingBack
            pair unitWorld 1 (input "add_to_cart" "web" "" "user_2" (noon - 60))
            (fun _ _ => eq_refl) _ eq_refl _ _).
  - intros [|[|j]] ev Hj; try discriminate Hj; injection Hj as <-;
      (split; [exact is_int64_before_noon | reflexivity]).
  - intros [|j] ev Hlt Hj; [|lia]. injection Hj as <-. vm_compute. discriminate.
  - vm_compute. reflexivity.
Defined.

Lemma InsertEvent_keeps_port_contract_witness :
  EventsPostgres.EventRepository_InsertEvent failingMarshal
    (Spec.eventOf (input "product_view" "web" "" "user_1" (noon - 60))) (reporting 1)
  = (reporting 1, (false, Some (errors_New "json: unsupported value"))).
Proof.
  exact (proj1 (proj2 (InsertEvent_keeps_port_contract failingMarshal
                         (Spec.eventOf (input "product_view" "web" "" "user_1" (noon - 60)))
                         (reporting 1)))
           (errors_New "json: unsupported value") eq_refl).
Defined.

Lemma Execute_result_or_error_witness :
  (Metrics.Execute (MetricsReaderPort0 := summaryReader)
     (Metrics.mkGetMetricsInput "" 100 200 None "" "") metricsWorld).2.1 = None.
Proof.
  refine (proj1 (Execute_result_or_error (H := summaryReader)
                   (Metrics.mkGetMetricsInput "" 100 200 None "" "") metricsWorld) _).
  vm_compute. discriminate.
Defined.

Lemma QueryMetrics_unsupported_group_by_witness :
  MetricsPostgres.MetricsRepository_QueryMetrics (fun _ => "")
    (Metrics.mkMetricsFilter "product_view" 100 200 None "minute" "") metricsDB
  = (metricsDB, (None, Some (errors_New "unsupported group_by: minute"))).
Proof.
  refine (QueryMetrics_unsupported_group_by (fun _ => "")
            (Metrics.mkMetricsFilter "product_view" 100 200 None "minute" "") metricsDB
            _ _ _); discriminate.
Defined.

Lemma QueryMetrics_no_group_summary_witness :
  (MetricsPostgres.MetricsRepository_QueryMetrics (fun _ => "") noGroup (answering [])).2
  = (Some (Metrics.mkAggregatedMetrics "product_view" 100 200 0 0 "" []), None)
  ∧ (MetricsPostgres.MetricsRepository_QueryMetrics (fun _ => "") noGroup
       (answering [summaryRow])).2
    = (Some (Metrics.mkAggregatedMetrics "product_view" 100 200 150 40 "" []), None).
Proof.
  split.
  - exact (proj1 (QueryMetrics_no_group_summary (fun _ => "") noGroup (answering [])
                    (MetricsPostgres.mkRowScanner [] None) eq_refl (fun _ _ => eq_refl)
                    eq_refl) eq_refl).
  - exact (proj2 (QueryMetrics_no_group_summary (fun _ => "") noGroup
                    (answering [summaryRow])
                    (MetricsPostgres.mkRowScanner [summaryRow] None) eq_refl
                    (fun _ _ => eq_refl) eq_refl) 150 40 [] eq_refl).
Defined.

Lemma QueryMetrics_by_channel_errors_witness :
  (MetricsPostgres.MetricsRepository_QueryMetrics (fun _ => "") byChannel
     (answering brokenRows)).2
  = (None, Some (errors_New "sql: Scan error on column index 1")).
Proof.
  exact (proj1 (proj2 (QueryMetrics_by_channel_errors (fun _ => "") byChannel
                         (answering brokenRows)
                         (inl (MetricsPostgres.mkRowScanner brokenRows None))
                         eq_refl (fun _ _ => eq_refl)))
           (MetricsPostgres.mkRowScanner brokenRows None) [mobile]
           (errors_New "sql: Scan error on column index 1") [] eq_refl eq_refl).
Defined.

Lemma QueryMetrics_by_channel_groups_in_row_order_witness :
  exists res,
    (MetricsPostgres.MetricsRepository_QueryMetrics (fun _ => "") byChannel metricsDB).2
    = (Some res, None)
    ∧ Metrics.Groups res = [mobile; web].
Proof.
  exact (QueryMetrics_by_channel_groups_in_row_order (fun _ => "") byChannel metricsDB
           channelRows [mobile; web] eq_refl (fun _ _ => eq_refl) eq_refl eq_refl).
Defined.

Lemma QueryMetrics_by_time_groups_in_row_order_witness :
  exists res,
    (MetricsPostgres.MetricsRepository_QueryMetrics (fun t => pretty (Unix t)) byTime
       (answering (Spec.bucketRow <$> buckets))).2
    = (Some res, None)
    ∧ Metrics.Groups res
      = (fun b : Time * Z * Z =>
           Metrics.mkMetricsGroup (pretty (Unix (UTC b.1.1))) b.1.2 b.2) <$> buckets.
Proof.
  exact (QueryMetrics_by_time_groups_in_row_order (fun t => pretty (Unix t)) byTime
           (answering (Spec.bucketRow <$> buckets))
           (MetricsPostgres.mkRowScanner (Spec.bucketRow <$> buckets) None) buckets
           eq_refl (fun _ _ => eq_refl) eq_refl eq_refl).
Defined.

Lemma QueryMetrics_where_clause_matches_arguments_witness :
  (MetricsPostgres.MetricsRepository_QueryMetrics (fun _ => "") byTime metricsDB).1
  = (MetricsPostgres.QueryContext ("
SELECT
    date_trunc('" +:+ "hour" +:+ "', event_time) AS bucket,
    COUNT(*) AS total_count,
    COUNT(DISTINCT user_id) AS unique_users
FROM events
WHERE " +:+ ("event_name = $1 AND event_time BETWEEN $2 AND $3" +:+ " AND channel = $4")
        +:+ "
GROUP BY bucket
ORDER BY bucket
")
       ([ArgString "product_view"; ArgTime (UTC (time_Unix 100));
         ArgTime (UTC (time_Unix 200))] ++ [ArgString "web"]) metricsDB).1.
Proof.
  exact (proj1 (proj2 (proj2 (QueryMetrics_where_clause_matches_arguments (fun _ => "")
                                byTime metricsDB))) eq_refl).
Defined.

(** What the recording database of the tests holds after a query without
    channel: three arguments, and no condition on $4. *)
Example query_without_channel_recorded :
  let db' := (MetricsPostgres.MetricsRepository_QueryMetrics (fun _ => "") noGroup
                metricsDB).1 in
  MetricsPostgres.called db' = true
  ∧ MetricsPostgres.lastArgs db'
    = [ArgString "product_view"; ArgTime (UTC (time_Unix 100)); ArgTime (UTC (time_Unix 200))]
  ∧ MetricsPostgres.lastQuery db'
    = "
SELECT
    COUNT(*) AS total_count,
    COUNT(DISTINCT user_id) AS unique_users
FROM events
WHERE event_name = $1 AND event_time BETWEEN $2 AND $3".
Proof. cbn zeta. repeat split; vm_compute; reflexivity. Qed.

(** A duplicate is answered 200. *)
Lemma CreateEvent_status_tells_outcome_witness :
  EventsHTTP.StatusCode
    (EventsHTTP.CreateEvent
       (StoreEventUseCase0 :=
          EventsHTTP.useCase
            (EventRepositoryPort0 := EventsPostgres.EventRepository marshal) clock)
       (inl (request "product_view")) (dbWorld 0)).2 = 200.
Proof.
  refine (proj2 (proj1 (proj2 (proj2 (CreateEvent_status_tells_outcome
            (H := EventsHTTP.useCase
                    (EventRepositoryPort0 := EventsPostgres.EventRepository marshal) clock)
            (request "product_view") (dbWorld 0))))) _).
  reflexivity.
Defined.

Lemma CreateEvent_rejects_invalid_request_witness :
  (EventsHTTP.CreateEvent (StoreEventUseCase0 := EventsHTTP.useCase clock)
     (inl (request "")) bulkWorld).2
  = EventsHTTP.mkResponse 400 (EventsHTTP.ErrorResponse "invalid_event" "invalid event")
  ∧ Events.calls (EventsHTTP.CreateEvent (StoreEventUseCase0 := EventsHTTP.useCase clock)
                    (inl (request "")) bulkWorld).1 = Events.calls bulkWorld
  ∧ Events.repo (EventsHTTP.CreateEvent (StoreEventUseCase0 := EventsHTTP.useCase clock)
                   (inl (request "")) bulkWorld).1 = Events.repo bulkWorld.
Proof.
  refine (proj1 (CreateEvent_rejects_invalid_request clock (request "") bulkWorld) _).
  left. reflexivity.
Defined.

(** Three events, answered created, duplicate, created: 201 with the three
    events handed over in order and counters 2 and 1. *)
Lemma BulkCreateEvents_201_counts_every_event_witness :
  let breq := EventsHTTP.mkBulkCreateEventsRequest
                [request "product_view"; request "product_view"; request "add_to_cart"] in
  let run := EventsHTTP.BulkCreateEvents (StoreEventUseCase0 := EventsHTTP.useCase clock)
               (inl breq) bulkWorld in
  exists log,
    Events.calls run.1 = Events.calls bulkWorld ++ log
    ∧ log.*1 = (fun item => Spec.eventOf (EventsHTTP.inputOf item))
               <$> EventsHTTP.req_Events breq
    ∧ Forall (fun c => c.2.2 = None) log
    ∧ EventsHTTP.body run.2
      = EventsHTTP.MapCounts
          (Z.of_nat (length (filter (fun c => c.2.1 = true) log)))
          (Z.of_nat (length (filter (fun c => c.2.1 = false) log)))
    ∧ Z.of_nat (length (filter (fun c => c.2.1 = true) log))
      + Z.of_nat (length (filter (fun c => c.2.1 = false) log))
      = 3.
Proof.
  refine (proj1 (BulkCreateEvents_201_counts_every_event clock
                   (EventsHTTP.mkBulkCreateEventsRequest
                      [request "product_view"; request "product_view";
                       request "add_to_cart"]) bulkWorld) _ _).
  - cbn [EventsHTTP.req_Events].
    repeat (apply List.Forall_cons; [exact is_int64_before_noon|]). apply List.Forall_nil.
  - reflexivity.
Defined.

Example bulk_request_answered :
  (EventsHTTP.BulkCreateEvents (StoreEventUseCase0 := EventsHTTP.useCase clock)
     (inl (EventsHTTP.mkBulkCreateEventsRequest
             [request "product_view"; request "product_view"; request "add_to_cart"]))
     bulkWorld).2
  = EventsHTTP.mkResponse 201 (EventsHTTP.MapCounts 2 1).
Proof. vm_compute. reflexivity. Qed.

Lemma GetMetrics_parameter_checks_witness :
  MetricsHTTP.GetMetrics
    (GetMetricsUseCase0 := MetricsHTTP.useCase (MetricsReaderPort0 := summaryReader))
    parse badFromQuery metricsWorld
  = (metricsWorld,
     MetricsHTTP.Responds
       (MetricsHTTP.mkResponse 400 (MetricsHTTP.MapError "invalid 'from' parameter"))).
Proof.
  refine (proj1 (proj2 (proj2 (GetMetrics_parameter_checks
            (H := MetricsHTTP.useCase (MetricsReaderPort0 := summaryReader))
            parse badFromQuery metricsWorld))) _ _ _
            (errors_New "strconv.ParseInt: invalid syntax") eq_refl); discriminate.
Defined.

Lemma GetMetrics_answers_from_use_case_witness :
  exists input,
    Metrics.in_EventName input = "product_view"
    ∧ Metrics.in_From input = 100 ∧ Metrics.in_To input = 200
    ∧ Metrics.in_GroupBy input = "channel"
    ∧ Metrics.in_Channel input = None.
Proof.
  destruct (GetMetrics_answers_from_use_case
              (H := MetricsHTTP.useCase (MetricsReaderPort0 := summaryReader))
              parse byChannelQuery metricsWorld 100 200)
    as (input & Hn & Hf & Ht & Hg & _ & Hc & _); try discriminate; try reflexivity.
  exists input. repeat split; try assumption. apply Hc. reflexivity.
Defined.

(** The query of the tests through handler, use case and repository: a 200
    answer with the two groups in the order of the rows. *)
Example GetMetrics_by_channel_example :
  (MetricsHTTP.GetMetrics
     (GetMetricsUseCase0 :=
        MetricsHTTP.useCase
          (MetricsReaderPort0 := MetricsPostgres.MetricsRepository (fun _ => "")))
     parse byChannelQuery metricsDBWorld).2
  = MetricsHTTP.Responds
      (MetricsHTTP.mkResponse 200
         (MetricsHTTP.Metrics
            (MetricsHTTP.mkMetricsResponse "product_view" 100 200 200 80 "channel"
               [MetricsHTTP.mkMetricsGroupResponse "mobile" 80 30;
                MetricsHTTP.mkMetricsGroupResponse "web" 120 50]))).
Proof. vm_compute. reflexivity. Qed.

Lemma GetMetrics_never_panics_witness :
  (MetricsHTTP.GetMetrics
     (GetMetricsUseCase0 :=
        MetricsHTTP.useCase
          (MetricsReaderPort0 := MetricsPostgres.MetricsRepository (fun _ => "")))
     parse byChannelQuery metricsDBWorld).2 ≠ MetricsHTTP.PanicNilResult.
Proof.
  exact (GetMetrics_never_panics (fun _ => "") parse byChannelQuery metricsDBWorld).
Defined.
